(** * SwasthiQ EMR appointment system: conflict detection and appointment service

    A shallow embedding of [backend/utils/conflict_detector.py],
    [backend/models/appointment.py],
    [backend/services/appointment_service.py] and the resolvers of
    [backend/graphql_schema], followed by the properties proved about
    them.

    Conventions of the embedding.
    - Python [int] is [Z]; Python [str] is [string], one [ascii] per
      character (the digits recognised by [\d] are the ASCII ones).
    - A function that may raise returns a [result]; the constructors of
      [exn] name the raise sites.
    - The module-level list [appointments_db] is threaded explicitly: a
      service function takes the list and returns the outcome together
      with the list after the call.
    - [uuid4()] and [datetime.utcnow()] are inputs of [create_appointment]. *)

From Stdlib Require Import ZArith String Ascii Lia.
From stdpp Require Import base tactics option list strings.

Local Open Scope string_scope.
Local Open Scope Z_scope.

(** ** Exceptions and results *)

Inductive exn : Type :=
  | TimeConflict (msg : string)   (* ValueError raised by create_appointment *)
  | NotFound (msg : string)       (* ValueError raised by update / delete *)
  | StrptimeError                 (* ValueError raised by datetime.strptime *)
  | ValidationError               (* pydantic.ValidationError *)
  | OverflowError.                (* datetime + timedelta out of range *)

Inductive result (A : Type) : Type :=
  | Ok (a : A)
  | Raise (e : exn).

Arguments Ok {A} a.
Arguments Raise {A} e.

Definition rbind {A B : Type} (r : result A) (k : A -> result B) : result B :=
  match r with
  | Ok a => k a
  | Raise e => Raise e
  end.

#[global] Instance result_bind : MBind result := fun A B k r => rbind r k.
#[global] Instance result_ret : MRet result := @Ok.

Definition or_else {A : Type} (o1 o2 : option A) : option A :=
  match o1 with
  | Some a => Some a
  | None => o2
  end.

(** ** Digits *)

Definition in_range (lo hi c : ascii) : bool :=
  (nat_of_ascii lo <=? nat_of_ascii c)%nat && (nat_of_ascii c <=? nat_of_ascii hi)%nat.

Definition is_digit (c : ascii) : bool := in_range "0" "9" c.

Definition digit_val (c : ascii) : Z := Z.of_nat (nat_of_ascii c) - 48.

Definition digit_char (n : Z) : ascii := ascii_of_nat (48 + Z.to_nat (n mod 10)).

(** [%02d], [%04d] and [%06d] on a number that fits the width. *)
Definition pad2 (n : Z) : string :=
  String (digit_char (n / 10)) (String (digit_char n) "").

Definition pad4 (n : Z) : string :=
  String (digit_char (n / 1000)) (String (digit_char (n / 100)) (pad2 n)).

Definition pad6 (n : Z) : string :=
  String (digit_char (n / 100000)) (String (digit_char (n / 10000)) (pad4 n)).

(** ** [datetime.strptime(s, '%H:%M')]

    The format compiles to the regular expression
    [(?P<H>2[0-3]|[0-1]\d|\d):(?P<M>[0-5]\d|\d)]; the alternatives are
    tried in order with backtracking, which the continuation [k] models.
    A match that leaves characters unconsumed is an error as well. *)

Section Regex.
Context {A : Type}.

(** [2[0-3]|[0-1]\d|\d] *)
Definition re_H (s : string) (k : Z -> string -> option A) : option A :=
  or_else
    (match s with
     | String c1 (String c2 r) =>
         if Ascii.eqb c1 "2" && in_range "0" "3" c2
         then k (20 + digit_val c2) r else None
     | _ => None
     end)
    (or_else
       (match s with
        | String c1 (String c2 r) =>
            if in_range "0" "1" c1 && is_digit c2
            then k (10 * digit_val c1 + digit_val c2) r else None
        | _ => None
        end)
       (match s with
        | String c1 r => if is_digit c1 then k (digit_val c1) r else None
        | _ => None
        end)).

(** [[0-5]\d|\d] *)
Definition re_M (s : string) (k : Z -> string -> option A) : option A :=
  or_else
    (match s with
     | String c1 (String c2 r) =>
         if in_range "0" "5" c1 && is_digit c2
         then k (10 * digit_val c1 + digit_val c2) r else None
     | _ => None
     end)
    (match s with
     | String c1 r => if is_digit c1 then k (digit_val c1) r else None
     | _ => None
     end).

(** [\d\d\d\d] *)
Definition re_Y (s : string) (k : Z -> string -> option A) : option A :=
  match s with
  | String c1 (String c2 (String c3 (String c4 r))) =>
      if is_digit c1 && is_digit c2 && is_digit c3 && is_digit c4
      then k (1000 * digit_val c1 + 100 * digit_val c2
              + 10 * digit_val c3 + digit_val c4) r
      else None
  | _ => None
  end.

(** [1[0-2]|0[1-9]|[1-9]] *)
Definition re_m (s : string) (k : Z -> string -> option A) : option A :=
  or_else
    (match s with
     | String c1 (String c2 r) =>
         if Ascii.eqb c1 "1" && in_range "0" "2" c2
         then k (10 + digit_val c2) r else None
     | _ => None
     end)
    (or_else
       (match s with
        | String c1 (String c2 r) =>
            if Ascii.eqb c1 "0" && in_range "1" "9" c2
            then k (digit_val c2) r else None
        | _ => None
        end)
       (match s with
        | String c1 r => if in_range "1" "9" c1 then k (digit_val c1) r else None
        | _ => None
        end)).

(** [3[0-1]|[1-2]\d|0[1-9]|[1-9]| [1-9]] *)
Definition re_d (s : string) (k : Z -> string -> option A) : option A :=
  or_else
    (match s with
     | String c1 (String c2 r) =>
         if Ascii.eqb c1 "3" && in_range "0" "1" c2
         then k (30 + digit_val c2) r else None
     | _ => None
     end)
    (or_else
       (match s with
        | String c1 (String c2 r) =>
            if in_range "1" "2" c1 && is_digit c2
            then k (10 * digit_val c1 + digit_val c2) r else None
        | _ => None
        end)
       (or_else
          (match s with
           | String c1 (String c2 r) =>
               if Ascii.eqb c1 "0" && in_range "1" "9" c2
               then k (digit_val c2) r else None
           | _ => None
           end)
          (or_else
             (match s with
              | String c1 r => if in_range "1" "9" c1 then k (digit_val c1) r else None
              | _ => None
              end)
             (match s with
              | String c1 (String c2 r) =>
                  if Ascii.eqb c1 " " && in_range "1" "9" c2
                  then k (digit_val c2) r else None
              | _ => None
              end)))).

(** A literal character of the format. *)
Definition re_lit (c : ascii) (s : string) (k : string -> option A) : option A :=
  match s with
  | String c1 r => if Ascii.eqb c1 c then k r else None
  | _ => None
  end.
End Regex.

(** The match, with the text left after it. *)
Definition match_HM (s : string) : option (Z * Z * string) :=
  re_H s (fun h r => re_lit ":" r (fun r => re_M r (fun m r => Some (h, m, r)))).

Definition strptime_HM (s : string) : result (Z * Z) :=
  match match_HM s with
  | Some (h, m, "") => Ok (h, m)
  | _ => Raise StrptimeError
  end.

(** ** [datetime] values

    Only the fields the code reads are kept: the proleptic ordinal of the
    date ([date.toordinal()]), the hour and the minute. *)

Record datetime : Type := mk_datetime {
  dt_ordinal : Z;
  dt_hour : Z;
  dt_minute : Z
}.

(** [date(1900, 1, 1).toordinal()]: the date strptime fills in. *)
Definition ordinal_1900 : Z := 693596.
(** [datetime.min] and [datetime.max] fall on these ordinals. *)
Definition ordinal_min : Z := 1.
Definition ordinal_max : Z := 3652059.

(** [datetime < datetime] *)
Definition dt_ltb (a b : datetime) : bool :=
  (dt_ordinal a <? dt_ordinal b)
  || ((dt_ordinal a =? dt_ordinal b)
      && ((dt_hour a <? dt_hour b)
          || ((dt_hour a =? dt_hour b) && (dt_minute a <? dt_minute b)))).

(** [datetime + timedelta(minutes=n)] *)
Definition dt_add_minutes (d : datetime) (n : Z) : result datetime :=
  let total := dt_hour d * 60 + dt_minute d + n in
  let day := dt_ordinal d + total / 1440 in
  if (ordinal_min <=? day) && (day <=? ordinal_max)
  then Ok (mk_datetime day (total mod 1440 / 60) (total mod 60))
  else Raise OverflowError.

(** [datetime.strftime('%H:%M')] *)
Definition strftime_HM (d : datetime) : string :=
  pad2 (dt_hour d) ++ ":" ++ pad2 (dt_minute d).

(** ** conflict_detector.py *)

Module conflict_detector.

Definition parse_time (time_str : string) : result datetime :=
  hm ← strptime_HM time_str;
  Ok (mk_datetime ordinal_1900 (fst hm) (snd hm)).

Definition add_minutes (time_str : string) (minutes : Z) : result string :=
  time_obj ← parse_time time_str;
  new_time ← dt_add_minutes time_obj minutes;
  Ok (strftime_HM new_time).

Definition time_to_minutes (time_str : string) : result Z :=
  time_obj ← parse_time time_str;
  Ok (dt_hour time_obj * 60 + dt_minute time_obj).

Definition conflict_message (slot1_start slot1_end_time slot2_start slot2_end_time : string)
  : string :=
  "Conflict detected: "
  ++ "Slot 1 (" ++ slot1_start ++ "-" ++ slot1_end_time ++ ") overlaps with "
  ++ "Slot 2 (" ++ slot2_start ++ "-" ++ slot2_end_time ++ ")".

Definition detect_overlap (slot1_start : string) (slot1_duration : Z)
    (slot2_start : string) (slot2_duration : Z) (buffer_minutes : Z)
  : result (bool * option string) :=
  start1 ← time_to_minutes slot1_start;
  let end1 := start1 + slot1_duration + buffer_minutes in
  start2 ← time_to_minutes slot2_start;
  let end2 := start2 + slot2_duration + buffer_minutes in
  let has_overlap := (start1 <? end2) && (start2 <? end1) in
  if has_overlap then
    slot1_end_time ← add_minutes slot1_start slot1_duration;
    slot2_end_time ← add_minutes slot2_start slot2_duration;
    Ok (true, Some (conflict_message slot1_start slot1_end_time
                                     slot2_start slot2_end_time))
  else Ok (false, None).

(** The default of [buffer_minutes]. *)
Definition default_buffer : Z := 5.

Definition validate_business_hours (time_str : string) (min_hour max_hour : Z)
  : result bool :=
  time_obj ← parse_time time_str;
  Ok ((min_hour <=? dt_hour time_obj) && (dt_hour time_obj <? max_hour)).

Definition default_min_hour : Z := 8.
Definition default_max_hour : Z := 20.

End conflict_detector.

(** ** [datetime.strptime(s, '%Y-%m-%d')]

    After the match, strptime builds [date(year, month, day)], which
    raises for year 0 and for a day the month does not have. *)

Definition match_Ymd (s : string) : option (Z * Z * Z * string) :=
  re_Y s (fun y r => re_lit "-" r (fun r =>
  re_m r (fun mo r => re_lit "-" r (fun r =>
  re_d r (fun d r => Some (y, mo, d, r)))))).

Definition is_leap (y : Z) : bool :=
  (y mod 4 =? 0) && (negb (y mod 100 =? 0) || (y mod 400 =? 0)).

Definition days_in_month (y mo : Z) : Z :=
  if mo =? 2 then (if is_leap y then 29 else 28)
  else if (mo =? 4) || (mo =? 6) || (mo =? 9) || (mo =? 11) then 30
  else 31.

Definition strptime_Ymd (s : string) : result (Z * Z * Z) :=
  match match_Ymd s with
  | Some (y, mo, d, "") =>
      if (1 <=? y) && (d <=? days_in_month y mo)
      then Ok (y, mo, d) else Raise StrptimeError
  | _ => Raise StrptimeError
  end.

Definition is_ok {A : Type} (r : result A) : bool :=
  match r with
  | Ok _ => true
  | Raise _ => false
  end.

(** ** models/appointment.py *)

(** A row of [appointments_db], and the fields of [AppointmentResponse]. *)
Record Appointment : Type := mk_appointment {
  apt_id : string;
  apt_patient_name : string;
  apt_date : string;
  apt_time : string;
  apt_duration : Z;
  apt_doctor_name : string;
  apt_status : string;
  apt_mode : string;
  apt_created_at : string
}.

Record CreateAppointmentInput : Type := mk_input {
  in_patient_name : string;
  in_date : string;
  in_time : string;
  in_duration : Z;
  in_doctor_name : string;
  in_mode : string;
  in_status : option string
}.

(** [Literal[...]] membership. *)
Definition literal (values : list string) (v : string) : bool :=
  existsb (String.eqb v) values.

Definition modes : list string := ["In-person"; "Video"; "Phone"].
Definition create_statuses : list string := ["Scheduled"; "Confirmed"; "Upcoming"].
Definition statuses : list string :=
  ["Scheduled"; "Confirmed"; "Upcoming"; "Completed"; "Cancelled"].

(** [Field(min_length=2, max_length=100)] *)
Definition name_length_ok (s : string) : bool :=
  (2 <=? String.length s)%nat && (String.length s <=? 100)%nat.

(** The constraints of [AppointmentBase], field validators included. *)
Definition validate_base (patient_name date time : string) (duration : Z)
    (doctor_name mode : string) : bool :=
  name_length_ok patient_name
  && is_ok (strptime_Ymd date)
  && is_ok (strptime_HM time)
  && (15 <=? duration) && (duration <=? 240)
  && name_length_ok doctor_name
  && literal modes mode.

Definition validate_create_input (i : CreateAppointmentInput) : bool :=
  validate_base (in_patient_name i) (in_date i) (in_time i) (in_duration i)
                (in_doctor_name i) (in_mode i)
  && match in_status i with
     | Some s => literal create_statuses s
     | None => true
     end.

Definition validate_response (a : Appointment) : bool :=
  validate_base (apt_patient_name a) (apt_date a) (apt_time a) (apt_duration a)
                (apt_doctor_name a) (apt_mode a)
  && literal statuses (apt_status a).

(** The constructor call that turns a row into an [AppointmentResponse]. *)
Definition AppointmentResponse (apt : Appointment) : result Appointment :=
  if validate_response apt then Ok apt else Raise ValidationError.

(** ** [datetime.utcnow().isoformat()] *)

Record utc_time : Type := mk_utc {
  utc_year : Z;
  utc_month : Z;
  utc_day : Z;
  utc_hour : Z;
  utc_minute : Z;
  utc_second : Z;
  utc_microsecond : Z
}.


Definition isoformat (t : utc_time) : string :=
  pad4 (utc_year t) ++ "-" ++ pad2 (utc_month t) ++ "-" ++ pad2 (utc_day t)
  ++ "T" ++ pad2 (utc_hour t) ++ ":" ++ pad2 (utc_minute t)
  ++ ":" ++ pad2 (utc_second t)
  ++ (if utc_microsecond t =? 0 then "" else "." ++ pad6 (utc_microsecond t)).

(** ** services/appointment_service.py *)

Module appointment_service.

(** The rows the module starts with. *)
Definition appointments_db : list Appointment := [
  mk_appointment "apt-001" "Rajesh Kumar" "2025-12-27" "09:00" 30
    "Dr. Sarah Johnson" "Confirmed" "In-person" "2025-12-26T10:30:00Z";
  mk_appointment "apt-002" "Priya Sharma" "2025-12-27" "10:00" 45
    "Dr. Rajesh Verma" "Scheduled" "Video" "2025-12-26T11:00:00Z";
  mk_appointment "apt-003" "Amit Patel" "2025-12-27" "11:30" 30
    "Dr. Sarah Johnson" "Upcoming" "In-person" "2025-12-26T12:00:00Z";
  mk_appointment "apt-004" "Sneha Reddy" "2025-12-28" "14:00" 60
    "Dr. Anjali Desai" "Confirmed" "In-person" "2025-12-26T14:30:00Z";
  mk_appointment "apt-005" "Vikram Singh" "2025-12-26" "15:30" 30
    "Dr. Sarah Johnson" "Completed" "Phone" "2025-12-25T09:00:00Z";
  mk_appointment "apt-006" "Lakshmi Iyer" "2025-12-29" "09:30" 45
    "Dr. Rajesh Verma" "Scheduled" "Video" "2025-12-26T16:00:00Z";
  mk_appointment "apt-007" "Arjun Mehta" "2025-12-30" "11:00" 30
    "Dr. Anjali Desai" "Scheduled" "In-person" "2025-12-26T17:00:00Z";
  mk_appointment "apt-008" "Kavya Nair" "2025-12-25" "10:00" 60
    "Dr. Sarah Johnson" "Cancelled" "In-person" "2025-12-24T10:00:00Z";
  mk_appointment "apt-009" "Rohit Kapoor" "2025-12-31" "16:00" 30
    "Dr. Rajesh Verma" "Upcoming" "Video" "2025-12-26T18:00:00Z";
  mk_appointment "apt-010" "Ananya Chatterjee" "2026-01-02" "09:00" 45
    "Dr. Anjali Desai" "Scheduled" "In-person" "2025-12-26T19:00:00Z";
  mk_appointment "apt-011" "Deepak Rao" "2025-12-28" "10:30" 30
    "Dr. Sarah Johnson" "Confirmed" "In-person" "2025-12-26T20:00:00Z";
  mk_appointment "apt-012" "Neha Gupta" "2025-12-29" "15:00" 45
    "Dr. Anjali Desai" "Upcoming" "Video" "2025-12-26T21:00:00Z"
].

Definition parse_time (time_str : string) : result datetime :=
  hm ← strptime_HM time_str;
  Ok (mk_datetime ordinal_1900 (fst hm) (snd hm)).

Definition calculate_end_time (start_time : string) (duration : Z) : result string :=
  start_dt ← parse_time start_time;
  end_dt ← dt_add_minutes start_dt duration;
  Ok (strftime_HM end_dt).

Definition check_time_overlap (start1 end1 start2 end2 : string) : result bool :=
  start1_dt ← parse_time start1;
  end1_dt ← parse_time end1;
  start2_dt ← parse_time start2;
  end2_dt ← parse_time end2;
  Ok (dt_ltb start1_dt end2_dt && dt_ltb start2_dt end1_dt).

(** [if date:] and the like: [None] and the empty string are falsy. *)
Definition truthy (o : option string) : option string :=
  match o with
  | Some s => if String.eqb s "" then None else Some s
  | None => None
  end.

(** [[AppointmentResponse(...) for apt in rows]]: the first row that
    fails validation raises. *)
Fixpoint to_responses (rows : list Appointment) : result (list Appointment) :=
  match rows with
  | [] => Ok []
  | apt :: rest =>
      r ← AppointmentResponse apt;
      rs ← to_responses rest;
      Ok (r :: rs)
  end.

Definition get_appointments (date status doctor_name : option string)
    (db : list Appointment) : result (list Appointment) :=
  let filtered_appointments := db in
  let filtered_appointments :=
    match truthy date with
    | Some date =>
        List.filter (fun apt => String.eqb (apt_date apt) date) filtered_appointments
    | None => filtered_appointments
    end in
  let filtered_appointments :=
    match truthy status with
    | Some status =>
        List.filter (fun apt => String.eqb (apt_status apt) status) filtered_appointments
    | None => filtered_appointments
    end in
  let filtered_appointments :=
    match truthy doctor_name with
    | Some doctor_name =>
        List.filter (fun apt => String.eqb (apt_doctor_name apt) doctor_name)
                    filtered_appointments
    | None => filtered_appointments
    end in
  to_responses filtered_appointments.

(** The guard of the conflict loop. *)
Definition is_candidate (input_data : CreateAppointmentInput) (existing_apt : Appointment)
  : bool :=
  String.eqb (apt_doctor_name existing_apt) (in_doctor_name input_data)
  && String.eqb (apt_date existing_apt) (in_date input_data)
  && negb (literal ["Cancelled"; "Completed"] (apt_status existing_apt)).

Definition conflict_message (input_data : CreateAppointmentInput)
    (existing_apt : Appointment) (existing_end_time : string) : string :=
  "Time conflict: " ++ in_doctor_name input_data ++ " already has an appointment "
  ++ "from " ++ apt_time existing_apt ++ " to " ++ existing_end_time
  ++ " on " ++ in_date input_data.

(** The loop [for existing_apt in appointments_db] of create_appointment. *)
Fixpoint conflict_scan (input_data : CreateAppointmentInput) (new_end_time : string)
    (db : list Appointment) : result unit :=
  match db with
  | [] => Ok tt
  | existing_apt :: rest =>
      if is_candidate input_data existing_apt then
        existing_end_time ←
          calculate_end_time (apt_time existing_apt) (apt_duration existing_apt);
        overlap ← check_time_overlap (in_time input_data) new_end_time
                                     (apt_time existing_apt) existing_end_time;
        if overlap : bool
        then Raise (TimeConflict (conflict_message input_data existing_apt existing_end_time))
        else conflict_scan input_data new_end_time rest
      else conflict_scan input_data new_end_time rest
  end.

(** [f"apt-{uuid4().hex[:8]}"], with [uuid_hex] the value of [uuid4().hex]. *)
Definition new_id (uuid_hex : string) : string :=
  "apt-" ++ substring 0 8 uuid_hex.

(** [input_data.status or "Scheduled"] *)
Definition status_or_default (status : option string) : string :=
  match truthy status with
  | Some s => s
  | None => "Scheduled"
  end.

Definition new_appointment (input_data : CreateAppointmentInput) (uuid_hex : string)
    (utcnow : utc_time) : Appointment :=
  {| apt_id := new_id uuid_hex;
     apt_patient_name := in_patient_name input_data;
     apt_date := in_date input_data;
     apt_time := in_time input_data;
     apt_duration := in_duration input_data;
     apt_doctor_name := in_doctor_name input_data;
     apt_status := status_or_default (in_status input_data);
     apt_mode := in_mode input_data;
     apt_created_at := isoformat utcnow ++ "Z" |}.

(** Returns the outcome of the call and [appointments_db] after it. *)
Definition create_appointment (input_data : CreateAppointmentInput)
    (uuid_hex : string) (utcnow : utc_time) (db : list Appointment)
  : result Appointment * list Appointment :=
  match
    new_end_time ← calculate_end_time (in_time input_data) (in_duration input_data);
    conflict_scan input_data new_end_time db
  with
  | Raise e => (Raise e, db)
  | Ok _ =>
      let apt := new_appointment input_data uuid_hex utcnow in
      let db := (db ++ [apt])%list in
      (AppointmentResponse apt, db)
  end.

Definition with_status (apt : Appointment) (new_status : string) : Appointment :=
  {| apt_id := apt_id apt;
     apt_patient_name := apt_patient_name apt;
     apt_date := apt_date apt;
     apt_time := apt_time apt;
     apt_duration := apt_duration apt;
     apt_doctor_name := apt_doctor_name apt;
     apt_status := new_status;
     apt_mode := apt_mode apt;
     apt_created_at := apt_created_at apt |}.

Definition not_found_message (appointment_id : string) : string :=
  "Appointment with ID " ++ appointment_id ++ " not found".

(** The loop of update_appointment_status: the first row with the id
    has its status assigned in place; [None] when the loop runs out. *)
Fixpoint update_loop (appointment_id new_status : string) (db : list Appointment)
  : option (Appointment * list Appointment) :=
  match db with
  | [] => None
  | apt :: rest =>
      if String.eqb (apt_id apt) appointment_id then
        let apt := with_status apt new_status in
        Some (apt, apt :: rest)
      else
        match update_loop appointment_id new_status rest with
        | Some (r, rest) => Some (r, apt :: rest)
        | None => None
        end
  end.

Definition update_appointment_status (appointment_id new_status : string)
    (db : list Appointment) : result Appointment * list Appointment :=
  match update_loop appointment_id new_status db with
  | Some (apt, db) => (AppointmentResponse apt, db)
  | None => (Raise (NotFound (not_found_message appointment_id)), db)
  end.

(** The loop [for i, apt in enumerate(appointments_db)] of
    delete_appointment, counting from [i]. *)
Fixpoint delete_loop (appointment_id : string) (i : nat) (db : list Appointment)
  : option nat :=
  match db with
  | [] => None
  | apt :: rest =>
      if String.eqb (apt_id apt) appointment_id then Some i
      else delete_loop appointment_id (S i) rest
  end.

(** [appointments_db.pop(i)] is [delete i db]: the loop only yields
    indices of the list. *)
Definition delete_appointment (appointment_id : string) (db : list Appointment)
  : result bool * list Appointment :=
  match delete_loop appointment_id 0 db with
  | Some i => (Ok true, delete i db)
  | None => (Raise (NotFound (not_found_message appointment_id)), db)
  end.

End appointment_service.

(** ** graphql_schema/types.py, queries.py and mutations.py

    The Strawberry type [Appointment] has the fields of a row, and the
    Strawberry input [CreateAppointmentInput] those of the Pydantic input,
    so the records above stand for them and the field-by-field copies of
    the resolvers are the identity. *)

Record MutationResponse : Type := mk_response {
  success : bool;
  message : string;
  appointment : option Appointment
}.

Module Query.

(** [Query.appointments] *)
Definition appointments (date status doctor_name : option string)
    (db : list Appointment) : result (list Appointment) :=
  appointments ← appointment_service.get_appointments date status doctor_name db;
  Ok appointments.

(** The loop [for apt in appointments] of [Query.appointment]. *)
Fixpoint first_with_id (id : string) (appointments : list Appointment)
  : option Appointment :=
  match appointments with
  | [] => None
  | apt :: rest =>
      if String.eqb (apt_id apt) id then Some apt else first_with_id id rest
  end.

(** [Query.appointment] *)
Definition appointment (id : string) (db : list Appointment)
  : result (option Appointment) :=
  appointments ← appointment_service.get_appointments None None None db;
  Ok (first_with_id id appointments).

End Query.

Module Mutation.

(** [PydanticCreateInput(...)]: the validated copy of the input. *)
Definition PydanticCreateInput (input : CreateAppointmentInput)
  : result CreateAppointmentInput :=
  if validate_create_input input then Ok input else Raise ValidationError.

(** [Mutation.create_appointment] *)
Definition create_appointment (input : CreateAppointmentInput)
    (uuid_hex : string) (utcnow : utc_time) (db : list Appointment)
  : result Appointment * list Appointment :=
  match PydanticCreateInput input with
  | Raise e => (Raise e, db)
  | Ok pydantic_input =>
      appointment_service.create_appointment pydantic_input uuid_hex utcnow db
  end.

(** [Mutation.update_appointment_status] *)
Definition update_appointment_status (id status : string) (db : list Appointment)
  : result Appointment * list Appointment :=
  appointment_service.update_appointment_status id status db.

(** The exceptions that are a Python [ValueError]: the ones the service
    raises itself, those of [strptime], and Pydantic's validation error;
    [OverflowError] is not one. *)
Definition is_ValueError (e : exn) : bool :=
  match e with
  | OverflowError => false
  | _ => true
  end.

(** [str(e)] for the exceptions the service raises with a message of its
    own; the text of the others is not modelled. *)
Definition exn_message (e : exn) : string :=
  match e with
  | TimeConflict msg => msg
  | NotFound msg => msg
  | _ => ""
  end.

(** [Mutation.delete_appointment], with its [try] and [except ValueError]. *)
Definition delete_appointment (id : string) (db : list Appointment)
  : result MutationResponse * list Appointment :=
  match appointment_service.delete_appointment id db with
  | (Ok success, db) =>
      (Ok (mk_response success ("Appointment " ++ id ++ " deleted successfully") None), db)
  | (Raise e, db) =>
      if is_ValueError e then (Ok (mk_response false (exn_message e) None), db)
      else (Raise e, db)
  end.

End Mutation.

(** ** Vocabulary of the specification *)

(** Minute [t], counted from 1900-01-01 00:00, is a moment a [datetime]
    can hold. *)
Definition representable (t : Z) : bool :=
  (ordinal_min <=? ordinal_1900 + t / 1440)
  && (ordinal_1900 + t / 1440 <=? ordinal_max).

(** The time of day [HH:MM] at minute [t]. *)
Definition clock (t : Z) : string :=
  pad2 (t mod 1440 / 60) ++ ":" ++ pad2 (t mod 60).

(** The overlap rule in the words of the specification, on minutes since
    midnight. *)
Definition overlap_rule (start1 d1 start2 d2 buffer : Z) : Prop :=
  start1 < start2 + d2 + buffer /\ start2 < start1 + d1 + buffer.

(** The ids held by the store, in order. *)
Definition ids (db : list Appointment) : list string := apt_id <$> db.

(** What a filter argument of get_appointments lets through: an absent or
    empty argument lets every value through, any other only itself. *)
Definition keeps (filter : option string) (value : string) : bool :=
  match filter with
  | Some f => String.eqb f "" || String.eqb value f
  | None => true
  end.

Definition selected (date status doctor_name : option string) (apt : Appointment) : bool :=
  keeps date (apt_date apt)
  && keeps status (apt_status apt)
  && keeps doctor_name (apt_doctor_name apt).



(** Calls of the three mutating service functions. *)
Inductive request : Type :=
  | Create (input_data : CreateAppointmentInput) (uuid_hex : string) (utcnow : utc_time)
  | UpdateStatus (appointment_id new_status : string)
  | Delete (appointment_id : string).

(** The store after a call, whether it returned or raised. *)
Definition step (db : list Appointment) (r : request) : list Appointment :=
  match r with
  | Create input_data uuid_hex utcnow =>
      snd (appointment_service.create_appointment input_data uuid_hex utcnow db)
  | UpdateStatus appointment_id new_status =>
      snd (appointment_service.update_appointment_status appointment_id new_status db)
  | Delete appointment_id =>
      snd (appointment_service.delete_appointment appointment_id db)
  end.

Definition run (rs : list request) (db : list Appointment) : list Appointment :=
  foldl step db rs.


(** The conflict test of the specification between a request and a stored
    row: same doctor, same date, status neither Cancelled nor Completed,
    and new_start < existing_end and existing_start < new_end, where an
    end is start plus duration in minutes since midnight. *)
Definition spec_conflict (input_data : CreateAppointmentInput) (existing : Appointment)
  : bool :=
  String.eqb (apt_doctor_name existing) (in_doctor_name input_data)
  && String.eqb (apt_date existing) (in_date input_data)
  && negb (String.eqb (apt_status existing) "Cancelled")
  && negb (String.eqb (apt_status existing) "Completed")
  && match conflict_detector.time_to_minutes (in_time input_data),
           conflict_detector.time_to_minutes (apt_time existing) with
     | Ok new_start, Ok existing_start =>
         (new_start <? existing_start + apt_duration existing)
         && (existing_start <? new_start + in_duration input_data)
     | _, _ => false
     end.

(** The test create_appointment carries out: the same, with each end taken
    as a time of day, that is modulo 24 hours. *)
Definition wrapped_conflict (input_data : CreateAppointmentInput) (existing : Appointment)
  : bool :=
  appointment_service.is_candidate input_data existing
  && match conflict_detector.time_to_minutes (in_time input_data),
           conflict_detector.time_to_minutes (apt_time existing) with
     | Ok new_start, Ok existing_start =>
         (new_start <? (existing_start + apt_duration existing) mod 1440)
         && (existing_start <? (new_start + in_duration input_data) mod 1440)
     | _, _ => false
     end.

(** The end of a stored row as create_appointment displays it. *)
Definition displayed_end (existing : Appointment) : string :=
  match conflict_detector.time_to_minutes (apt_time existing) with
  | Ok existing_start => clock (existing_start + apt_duration existing)
  | Raise _ => ""
  end.

(** A row whose end time create_appointment can compute. *)
Definition computable_end (existing : Appointment) : bool :=
  match conflict_detector.time_to_minutes (apt_time existing) with
  | Ok existing_start => representable (existing_start + apt_duration existing)
  | Raise _ => false
  end.

(** A slot that starts at minute [start] and is over by midnight. *)
Definition same_day (start duration : Z) : bool :=
  (0 <=? duration) && (start + duration <? 1440).

(** A run all of whose inputs went through the schema layer: create
    inputs pass [CreateAppointmentInput], new statuses are enumerated. *)
Definition validated_run (rs : list request) : bool :=
  forallb (fun r =>
    match r with
    | Create input_data _ _ => validate_create_input input_data
    | UpdateStatus _ new_status => literal statuses new_status
    | Delete _ => true
    end) rs.

(** A row whose status is one of the enumerated values. *)
Definition listed (apt : Appointment) : Prop := literal statuses (apt_status apt) = true.

(** A row that passes response validation. *)
Definition valid_row (apt : Appointment) : Prop := validate_response apt = true.

(** The outcome of a call with everything but the flag forgotten. *)
Definition flag_of (r : result (bool * option string)) : result bool :=
  match r with
  | Ok (flag, _) => Ok flag
  | Raise e => Raise e
  end.

(** A row whose fields other than the status pass [AppointmentBase]. *)
Definition base_valid (apt : Appointment) : Prop :=
  validate_base (apt_patient_name apt) (apt_date apt) (apt_time apt)
                (apt_duration apt) (apt_doctor_name apt) (apt_mode apt) = true.

(** Calls of the three mutations of the GraphQL schema. *)
Inductive api_call : Type :=
  | ApiCreate (input : CreateAppointmentInput) (uuid_hex : string) (utcnow : utc_time)
  | ApiUpdateStatus (id status : string)
  | ApiDelete (id : string).

Definition api_step (db : list Appointment) (c : api_call) : list Appointment :=
  match c with
  | ApiCreate input uuid_hex utcnow =>
      snd (Mutation.create_appointment input uuid_hex utcnow db)
  | ApiUpdateStatus id status => snd (Mutation.update_appointment_status id status db)
  | ApiDelete id => snd (Mutation.delete_appointment id db)
  end.

Definition api_run (cs : list api_call) (db : list Appointment) : list Appointment :=
  foldl api_step db cs.

(** A row with its status blanked: what update_appointment_status must
    leave alone. *)
Definition without_status (apt : Appointment) : Appointment :=
  appointment_service.with_status apt "".

(** Calls whose status updates name enumerated statuses only. *)
Definition listed_updates (cs : list api_call) : bool :=
  forallb (fun c =>
    match c with
    | ApiUpdateStatus _ status => literal statuses status
    | _ => true
    end) cs.

(** A row that cannot stand in the way of a request: another doctor,
    another date, or a status of Cancelled or Completed. *)
Definition out_of_the_way (input_data : CreateAppointmentInput) (apt : Appointment)
  : Prop :=
  apt_doctor_name apt <> in_doctor_name input_data
  \/ apt_date apt <> in_date input_data
  \/ apt_status apt = "Cancelled"
  \/ apt_status apt = "Completed".

(** ** Sample calls *)

Definition sample_utcnow : utc_time := mk_utc 2025 12 26 22 15 30 0.

(** 23:00 to midnight with Dr. Sarah Johnson on 2025-12-27. *)
Definition late_booking : CreateAppointmentInput :=
  mk_input "Meera Pillai" "2025-12-27" "23:00" 60 "Dr. Sarah Johnson" "In-person" None.

(** 23:30 to midnight with the same doctor on the same day. *)
Definition late_overlap : CreateAppointmentInput :=
  mk_input "Farhan Ali" "2025-12-27" "23:30" 30 "Dr. Sarah Johnson" "Video" None.

(** 09:15 to 09:45, across the seeded 09:00 to 09:30 appointment apt-001. *)
Definition morning_overlap : CreateAppointmentInput :=
  mk_input "Isha Bose" "2025-12-27" "09:15" 30 "Dr. Sarah Johnson" "In-person" None.

(** 10:00 to 10:30, clear of every seeded appointment of that doctor. *)
Definition morning_free : CreateAppointmentInput :=
  mk_input "Tara Menon" "2025-12-27" "10:00" 30 "Dr. Sarah Johnson" "Phone"
           (Some "Confirmed").

(** Two values of [uuid4().hex] that agree on their first eight digits, and
    a third that does not. *)
Definition uuid_a : string := "3f2a9c1e5b7d4e0a8c6f1b2d3e4f5a6b".
Definition uuid_b : string := "3f2a9c1e0d4c4b1f9a7e6c5d4b3a2f10".
Definition uuid_c : string := "c0ffee12a1b24c3d8e4f5a6b7c8d9e0f".

(** The seeded store after [late_booking] has been created. *)
Definition store_with_late_booking : list Appointment :=
  snd (appointment_service.create_appointment late_booking uuid_a sample_utcnow
         appointment_service.appointments_db).

(** The record [morning_free] yields with [uuid_c] at [sample_utcnow]. *)
Definition morning_free_record : Appointment :=
  mk_appointment "apt-c0ffee12" "Tara Menon" "2025-12-27" "10:00" 30
    "Dr. Sarah Johnson" "Confirmed" "Phone" "2025-12-26T22:15:30Z".

(** The record [late_overlap] yields with [uuid_c] at [sample_utcnow]. *)
Definition late_overlap_record : Appointment :=
  mk_appointment "apt-c0ffee12" "Farhan Ali" "2025-12-27" "23:30" 30
    "Dr. Sarah Johnson" "Scheduled" "Video" "2025-12-26T22:15:30Z".


(** Calls through the schema, one of them with a malformed input. *)
Definition sample_listed_api_run : list api_call :=
  [ ApiCreate late_booking uuid_a sample_utcnow;
    ApiUpdateStatus "apt-002" "Completed";
    ApiCreate (mk_input "X" "2025-02-30" "25:00" 5 "Dr. Sarah Johnson" "Chat" None)
              uuid_b sample_utcnow;
    ApiDelete "apt-004";
    ApiCreate morning_free uuid_c sample_utcnow ].

(** * Properties *)

(** ** Facts about the time parser *)

Lemma in_range_bounds lo hi c :
  in_range lo hi c = true ->
  (nat_of_ascii lo <= nat_of_ascii c <= nat_of_ascii hi)%nat.
Proof.
  unfold in_range. intros H. apply andb_prop in H as [H1 H2].
  apply Nat.leb_le in H1, H2. lia.
Qed.

Lemma digit_val_range lo hi c :
  in_range lo hi c = true -> digit_val lo <= digit_val c <= digit_val hi.
Proof. intros H%in_range_bounds. unfold digit_val. lia. Qed.

(** Turns the character tests of a successful match into bounds on the
    digits read, and evaluates [digit_val] on character constants. *)
Ltac digit_consts :=
  repeat match goal with
    | H : context [digit_val (Ascii ?a ?b ?c ?d ?e ?f ?g ?h)] |- _ =>
        let v := eval vm_compute in (digit_val (Ascii a b c d e f g h)) in
        change (digit_val (Ascii a b c d e f g h)) with v in H
    | |- context [digit_val (Ascii ?a ?b ?c ?d ?e ?f ?g ?h)] =>
        let v := eval vm_compute in (digit_val (Ascii a b c d e f g h)) in
        change (digit_val (Ascii a b c d e f g h)) with v
    end.

Ltac digit_bounds :=
  repeat match goal with
    | H : _ && _ = true |- _ => apply andb_prop in H as [? ?]
    | H : is_digit _ = true |- _ => apply digit_val_range in H
    | H : in_range _ _ _ = true |- _ => apply digit_val_range in H
    | H : Ascii.eqb _ _ = true |- _ => apply Ascii.eqb_eq in H; subst
    end;
  digit_consts.

Lemma re_H_inv {A} s k (x : A) :
  re_H s k = Some x -> exists h r, 0 <= h <= 23 /\ k h r = Some x.
Proof.
  unfold re_H, or_else. intros H.
  repeat case_match; simplify_eq; digit_bounds;
    eexists _, _; (split; [|eassumption]); lia.
Qed.

Lemma re_M_inv {A} s k (x : A) :
  re_M s k = Some x -> exists m r, 0 <= m <= 59 /\ k m r = Some x.
Proof.
  unfold re_M, or_else. intros H.
  repeat case_match; simplify_eq; digit_bounds;
    eexists _, _; (split; [|eassumption]); lia.
Qed.

Lemma re_lit_inv {A} c s k (x : A) :
  re_lit c s k = Some x -> exists r, s = String c r /\ k r = Some x.
Proof.
  unfold re_lit. intros H. repeat case_match; simplify_eq.
  digit_bounds. eauto.
Qed.

Lemma strptime_HM_range s h m :
  strptime_HM s = Ok (h, m) -> 0 <= h <= 23 /\ 0 <= m <= 59.
Proof.
  unfold strptime_HM, match_HM. intros H.
  destruct (re_H _ _) as [[[h' m'] r]|] eqn:E; [|done].
  apply re_H_inv in E as (h0 & r0 & Hh & E).
  apply re_lit_inv in E as (r1 & -> & E).
  apply re_M_inv in E as (m0 & r2 & Hm & E).
  destruct r; simplify_eq. done.
Qed.

(** Formatting a time of day and parsing it again gives it back. *)
Lemma strptime_strftime_table :
  forallb (fun h => forallb (fun m =>
      match strptime_HM (strftime_HM (mk_datetime ordinal_1900 h m)) with
      | Ok (h', m') => (h' =? h) && (m' =? m)
      | Raise _ => false
      end) (seqZ 0 60)) (seqZ 0 24) = true.
Proof. vm_compute. reflexivity. Qed.

Lemma strptime_strftime o h m :
  0 <= h <= 23 -> 0 <= m <= 59 ->
  strptime_HM (strftime_HM (mk_datetime o h m)) = Ok (h, m).
Proof.
  intros Hh Hm. pose proof strptime_strftime_table as T.
  rewrite forallb_forall in T.
  assert (In h (seqZ 0 24)) as Ih by (apply list_elem_of_In, elem_of_seqZ; lia).
  specialize (T h Ih). rewrite forallb_forall in T.
  assert (In m (seqZ 0 60)) as Im by (apply list_elem_of_In, elem_of_seqZ; lia).
  specialize (T m Im).
  destruct (strptime_HM _) as [[h' m']|]; [|done].
  apply andb_prop in T as [->%Z.eqb_eq ->%Z.eqb_eq]. done.
Qed.

(** ** The conflict detector *)

Section Detector.
Import conflict_detector.

Lemma time_to_minutes_inv s t :
  time_to_minutes s = Ok t ->
  exists h m, strptime_HM s = Ok (h, m) /\ t = h * 60 + m
              /\ 0 <= h <= 23 /\ 0 <= m <= 59.
Proof.
  unfold time_to_minutes, parse_time. intros H.
  destruct (strptime_HM s) as [[h m]|] eqn:E; simplify_eq/=.
  pose proof (strptime_HM_range _ _ _ E). eauto 10.
Qed.

Lemma time_to_minutes_range s t : time_to_minutes s = Ok t -> 0 <= t < 1440.
Proof. intros (h & m & _ & -> & ? & ?)%time_to_minutes_inv. lia. Qed.

Lemma add_minutes_eval s t d :
  time_to_minutes s = Ok t ->
  add_minutes s d
  = if representable (t + d) then Ok (clock (t + d)) else Raise OverflowError.
Proof.
  intros (h & m & E & -> & _)%time_to_minutes_inv.
  unfold add_minutes, parse_time, dt_add_minutes, representable. rewrite E. simpl.
  destruct (_ && _); reflexivity.
Qed.

Lemma detect_overlap_eval s1 t1 d1 s2 t2 d2 buffer :
  time_to_minutes s1 = Ok t1 -> time_to_minutes s2 = Ok t2 ->
  detect_overlap s1 d1 s2 d2 buffer
  = if (t1 <? t2 + d2 + buffer) && (t2 <? t1 + d1 + buffer) then
      if representable (t1 + d1) then
        if representable (t2 + d2) then
          Ok (true, Some (conflict_message s1 (clock (t1 + d1)) s2 (clock (t2 + d2))))
        else Raise OverflowError
      else Raise OverflowError
    else Ok (false, None).
Proof.
  intros E1 E2. unfold detect_overlap. rewrite E1, E2. simpl.
  rewrite (add_minutes_eval _ _ _ E1), (add_minutes_eval _ _ _ E2).
  repeat case_match; reflexivity.
Qed.

Lemma overlap_rule_test t1 d1 t2 d2 buffer :
  (t1 <? t2 + d2 + buffer) && (t2 <? t1 + d1 + buffer) = true
  <-> overlap_rule t1 d1 t2 d2 buffer.
Proof. unfold overlap_rule. rewrite andb_true_iff, !Z.ltb_lt. tauto. Qed.

(** Every duration up to 4,260,186,720 minutes keeps the end of a slot
    representable, whatever its start. *)
Lemma representable_duration s t d :
  time_to_minutes s = Ok t -> 0 <= d <= 4260186720 -> representable (t + d) = true.
Proof.
  intros Ht%time_to_minutes_range Hd. unfold representable.
  unfold ordinal_min, ordinal_1900, ordinal_max.
  assert (0 <= (t + d) / 1440) by (apply Z.div_pos; lia).
  assert ((t + d) / 1440 < 2958464) by (apply Z.div_lt_upper_bound; lia).
  apply andb_true_intro. split; apply Z.leb_le; lia.
Qed.
End Detector.

Section DetectorProperties.
Import conflict_detector.

(** C1 (amended). For start times that parse as HH:MM, non-negative
    durations and a non-negative buffer, where each slot's start plus
    duration is still a moment a datetime can hold, detect_overlap
    returns, and its flag is true exactly when
    m(start1) < m(start2) + d2 + buffer and m(start2) < m(start1) + d1 + buffer.
    A back-to-back pair (m(start2) = m(start1) + d1) gives false with
    buffer 0 and true with the default buffer 5. *)
Theorem detect_overlap_rule s1 d1 s2 d2 buffer t1 t2 :
  time_to_minutes s1 = Ok t1 -> time_to_minutes s2 = Ok t2 ->
  0 <= d1 -> 0 <= d2 -> 0 <= buffer ->
  representable (t1 + d1) = true -> representable (t2 + d2) = true ->
  (exists flag msg,
      detect_overlap s1 d1 s2 d2 buffer = Ok (flag, msg)
      /\ (flag = true <-> overlap_rule t1 d1 t2 d2 buffer))
  /\ (t2 = t1 + d1 ->
      detect_overlap s1 d1 s2 d2 0 = Ok (false, None)
      /\ exists msg, detect_overlap s1 d1 s2 d2 default_buffer = Ok (true, msg)).
Proof.
  intros E1 E2 Hd1 Hd2 Hb R1 R2. split.
  - rewrite (detect_overlap_eval _ _ _ _ _ _ _ E1 E2), R1, R2.
    destruct (_ && _) eqn:T; eexists _, _; (split; [reflexivity|]).
    + apply overlap_rule_test in T. tauto.
    + split; [done|]. intros T'%overlap_rule_test. congruence.
  - intros ->.
    rewrite !(detect_overlap_eval _ _ _ _ _ _ _ E1 E2), R1, R2.
    unfold default_buffer.
    replace (t1 + d1 <? t1 + d1 + 0) with false by (symmetry; apply Z.ltb_ge; lia).
    replace (t1 <? t1 + d1 + d2 + 5) with true by (symmetry; apply Z.ltb_lt; lia).
    replace (t1 + d1 <? t1 + d1 + 5) with true by (symmetry; apply Z.ltb_lt; lia).
    rewrite andb_false_r. simpl. eauto.
Qed.

Lemma detect_overlap_rule_witness :
  (exists flag msg,
      detect_overlap "09:00" 30 "09:30" 45 5 = Ok (flag, msg)
      /\ (flag = true <-> overlap_rule 540 30 570 45 5))
  /\ (570 = 540 + 30 ->
      detect_overlap "09:00" 30 "09:30" 45 0 = Ok (false, None)
      /\ exists msg, detect_overlap "09:00" 30 "09:30" 45 default_buffer = Ok (true, msg)).
Proof.
  apply (detect_overlap_rule "09:00" 30 "09:30" 45 5 540 570);
    [reflexivity | reflexivity | lia | lia | lia | reflexivity | reflexivity].
Defined.

(** C1, as stated, fails: with a first duration of 5,000,000,000
    minutes the rule holds, yet the call raises OverflowError while it
    formats the end of slot 1 and so returns no flag at all. *)
Lemma detect_overlap_overflow :
  time_to_minutes "09:00" = Ok 540
  /\ time_to_minutes "09:10" = Ok 550
  /\ overlap_rule 540 5000000000 550 30 5
  /\ detect_overlap "09:00" 5000000000 "09:10" 30 5 = Raise OverflowError.
Proof. unfold overlap_rule. repeat split; try lia; vm_compute; reflexivity. Qed.

(** C9. For a time string that parses as HH:MM with hour h,
    validate_business_hours returns true exactly when
    min_hour <= h < max_hour, whatever the minutes; with the defaults
    08:00 and 19:59 are accepted and 20:00 is rejected. *)
Theorem validate_business_hours_spec s h m min_hour max_hour :
  strptime_HM s = Ok (h, m) ->
  (exists b, validate_business_hours s min_hour max_hour = Ok b
             /\ (b = true <-> min_hour <= h < max_hour))
  /\ validate_business_hours "08:00" default_min_hour default_max_hour = Ok true
  /\ validate_business_hours "19:59" default_min_hour default_max_hour = Ok true
  /\ validate_business_hours "20:00" default_min_hour default_max_hour = Ok false.
Proof.
  intros E. split; [|repeat split; vm_compute; reflexivity].
  unfold validate_business_hours, parse_time. rewrite E. simpl.
  eexists. split; [reflexivity|].
  rewrite andb_true_iff, Z.leb_le, Z.ltb_lt. tauto.
Qed.

Lemma validate_business_hours_spec_witness :
  (exists b, validate_business_hours "07:45" 8 20 = Ok b
             /\ (b = true <-> 8 <= 7 < 20))
  /\ validate_business_hours "08:00" default_min_hour default_max_hour = Ok true
  /\ validate_business_hours "19:59" default_min_hour default_max_hour = Ok true
  /\ validate_business_hours "20:00" default_min_hour default_max_hour = Ok false.
Proof. apply (validate_business_hours_spec "07:45" 7 45 8 20). reflexivity. Defined.

(** C10. Whatever detect_overlap returns, the message is present
    exactly when the flag is true, and it then shows each slot from its
    start to the time of day of start plus duration, without the
    buffer; the call does return whenever both of those end times are
    moments a datetime can hold. detect_overlap("09:00", 30, "09:20", 30, 5)
    returns true with a message citing 09:00-09:30 and 09:20-09:50. *)
Theorem detect_overlap_message s1 d1 s2 d2 buffer t1 t2 :
  time_to_minutes s1 = Ok t1 -> time_to_minutes s2 = Ok t2 ->
  (forall flag msg,
      detect_overlap s1 d1 s2 d2 buffer = Ok (flag, msg) ->
      (msg <> None <-> flag = true)
      /\ (flag = true ->
          msg = Some ("Conflict detected: Slot 1 (" ++ s1 ++ "-" ++ clock (t1 + d1)
                      ++ ") overlaps with Slot 2 (" ++ s2 ++ "-" ++ clock (t2 + d2)
                      ++ ")")))
  /\ (representable (t1 + d1) = true -> representable (t2 + d2) = true ->
      exists flag msg, detect_overlap s1 d1 s2 d2 buffer = Ok (flag, msg))
  /\ detect_overlap "09:00" 30 "09:20" 30 5
     = Ok (true, Some "Conflict detected: Slot 1 (09:00-09:30) overlaps with Slot 2 (09:20-09:50)").
Proof.
  intros E1 E2. rewrite (detect_overlap_eval _ _ _ _ _ _ _ E1 E2).
  split; [|split; [|vm_compute; reflexivity]].
  - intros flag msg H. repeat case_match; simplify_eq; split; done.
  - intros -> ->. destruct (_ && _); eauto.
Qed.

Lemma detect_overlap_message_witness :
  (forall flag msg,
      detect_overlap "23:50" 30 "23:55" 15 0 = Ok (flag, msg) ->
      (msg <> None <-> flag = true)
      /\ (flag = true ->
          msg = Some ("Conflict detected: Slot 1 (" ++ "23:50" ++ "-" ++ clock (1430 + 30)
                      ++ ") overlaps with Slot 2 (" ++ "23:55" ++ "-" ++ clock (1435 + 15)
                      ++ ")")))
  /\ (representable (1430 + 30) = true -> representable (1435 + 15) = true ->
      exists flag msg, detect_overlap "23:50" 30 "23:55" 15 0 = Ok (flag, msg))
  /\ detect_overlap "09:00" 30 "09:20" 30 5
     = Ok (true, Some "Conflict detected: Slot 1 (09:00-09:30) overlaps with Slot 2 (09:20-09:50)").
Proof.
  apply (detect_overlap_message "23:50" 30 "23:55" 15 0 1430 1435); reflexivity.
Defined.
End DetectorProperties.

(** ** The appointment service: queries *)

Section Queries.
Import appointment_service.

Lemma to_responses_eval rows :
  to_responses rows
  = if forallb (fun apt => validate_response apt) rows then Ok rows
    else Raise ValidationError.
Proof.
  induction rows as [|apt rows IH]; [reflexivity|].
  simpl. unfold AppointmentResponse at 1.
  destruct (validate_response apt); [|reflexivity].
  simpl. rewrite IH. destruct (forallb _ rows); reflexivity.
Qed.

Lemma truthy_keeps o v :
  keeps o v = match truthy o with Some f => String.eqb v f | None => true end.
Proof. destruct o as [f|]; [|reflexivity]. simpl. destruct (String.eqb f ""); reflexivity. Qed.

Lemma filter_filter {A} (p q : A -> bool) l :
  List.filter q (List.filter p l) = List.filter (fun x => p x && q x) l.
Proof.
  induction l as [|x l IH]; [reflexivity|]. simpl.
  destruct (p x); simpl; [destruct (q x); simpl; congruence | exact IH].
Qed.

Lemma filter_true {A} (l : list A) : List.filter (fun _ => true) l = l.
Proof. induction l; simpl; congruence. Qed.

(** One conditional pass of get_appointments. *)
Lemma filter_pass o (f : Appointment -> string) l :
  match truthy o with
  | Some v => List.filter (fun apt => String.eqb (f apt) v) l
  | None => l
  end = List.filter (fun apt => keeps o (f apt)) l.
Proof.
  destruct (truthy o) as [v|] eqn:E.
  - apply List.filter_ext. intros a. rewrite truthy_keeps, E. reflexivity.
  - rewrite <- (filter_true l) at 1.
    apply List.filter_ext. intros a. rewrite truthy_keeps, E. reflexivity.
Qed.

(** The three conditional passes amount to one pass with the conjunction. *)
Lemma filter_passes date status doctor_name db :
  get_appointments date status doctor_name db
  = to_responses (List.filter (selected date status doctor_name) db).
Proof.
  unfold get_appointments. cbv zeta. f_equal.
  rewrite (filter_pass date apt_date), (filter_pass status apt_status),
    (filter_pass doctor_name apt_doctor_name), !filter_filter.
  apply List.filter_ext. intros a. unfold selected. rewrite andb_assoc. reflexivity.
Qed.

(** C4 (amended). For every store and every combination of the optional
    filters date, status and doctor_name, get_appointments selects the
    stored appointments whose fields equal every filter that is given and
    not empty (an absent or empty filter excludes nothing), in insertion
    order and without truncation; it returns them when each passes
    response validation and raises a validation error otherwise. *)
Theorem get_appointments_spec date status doctor_name db :
  get_appointments date status doctor_name db
  = let rows := List.filter (selected date status doctor_name) db in
    if forallb (fun apt => validate_response apt) rows then Ok rows
    else Raise ValidationError.
Proof. rewrite filter_passes. apply to_responses_eval. Qed.

(** C4, as stated, fails: with the status filter given as the empty
    string all twelve seeded rows come back, though none has an empty
    status; and once a row with an unlisted status is selected the call
    does not return at all. *)
Lemma get_appointments_empty_filter :
  get_appointments None (Some "") None appointments_db = Ok appointments_db
  /\ List.filter (fun apt => String.eqb (apt_status apt) "") appointments_db = []
  /\ get_appointments None None None
       (snd (update_appointment_status "apt-001" "Pending" appointments_db))
     = Raise ValidationError.
Proof. repeat split; vm_compute; reflexivity. Qed.
End Queries.

(** ** The appointment service: update and delete *)

Section UpdateDelete.
Import appointment_service.

Lemma ids_cons apt db : ids (apt :: db) = apt_id apt :: ids db.
Proof. reflexivity. Qed.

Lemma ids_app l1 l2 : ids (l1 ++ l2) = (ids l1 ++ ids l2)%list.
Proof. apply fmap_app. Qed.

Lemma not_in_ids_cons appointment_id apt db :
  appointment_id ∉ ids (apt :: db)
  <-> apt_id apt <> appointment_id /\ (appointment_id ∉ ids db).
Proof. rewrite ids_cons, not_elem_of_cons. split; intros [? ?]; split; congruence. Qed.

(** When the id occurs, the store splits at its first occurrence. *)
Lemma first_occurrence appointment_id db :
  appointment_id ∈ ids db ->
  exists l1 apt l2,
    db = (l1 ++ apt :: l2)%list
    /\ (appointment_id ∉ ids l1) /\ apt_id apt = appointment_id.
Proof.
  induction db as [|a db IH].
  - intros H. inversion H.
  - intros H. destruct (decide (apt_id a = appointment_id)) as [E|N].
    + exists [], a, db. split; [reflexivity|]. split; [|exact E].
      intros H'. inversion H'.
    + rewrite ids_cons in H. apply elem_of_cons in H as [H|H]; [congruence|].
      destruct (IH H) as (l1 & apt & l2 & -> & Hn & E).
      exists (a :: l1), apt, l2. split; [reflexivity|]. split; [|exact E].
      apply not_in_ids_cons. done.
Qed.

Lemma update_loop_none appointment_id new_status db :
  update_loop appointment_id new_status db = None <-> appointment_id ∉ ids db.
Proof.
  induction db as [|a db IH].
  - split; [|done]. intros _ H. inversion H.
  - rewrite not_in_ids_cons. cbn [update_loop].
    destruct (String.eqb_spec (apt_id a) appointment_id) as [E|N].
    + split; [done|]. intros [H _]. congruence.
    + destruct (update_loop appointment_id new_status db) as [[r rest]|].
      * split; [done|]. intros [_ H]. apply IH in H. done.
      * split; [|done]. intros _. split; [congruence|]. apply IH. done.
Qed.

Lemma update_loop_split appointment_id new_status l1 apt l2 :
  appointment_id ∉ ids l1 -> apt_id apt = appointment_id ->
  update_loop appointment_id new_status (l1 ++ apt :: l2)
  = Some (with_status apt new_status, (l1 ++ with_status apt new_status :: l2)%list).
Proof.
  intros Hn E. induction l1 as [|a l1 IH]; cbn [update_loop app].
  - rewrite E, String.eqb_refl. reflexivity.
  - apply not_in_ids_cons in Hn as [N Hn].
    destruct (String.eqb_spec (apt_id a) appointment_id) as [E'|_]; [congruence|].
    rewrite (IH Hn). reflexivity.
Qed.

Lemma delete_loop_none appointment_id i db :
  delete_loop appointment_id i db = None <-> appointment_id ∉ ids db.
Proof.
  revert i. induction db as [|a db IH]; intros i.
  - split; [|done]. intros _ H. inversion H.
  - rewrite not_in_ids_cons. cbn [delete_loop].
    destruct (String.eqb_spec (apt_id a) appointment_id) as [E|N].
    + split; [done|]. intros [H _]. congruence.
    + rewrite IH. tauto.
Qed.

Lemma delete_loop_split appointment_id i l1 apt l2 :
  appointment_id ∉ ids l1 -> apt_id apt = appointment_id ->
  delete_loop appointment_id i (l1 ++ apt :: l2) = Some (i + length l1)%nat.
Proof.
  intros Hn E. revert i. induction l1 as [|a l1 IH]; intros i; cbn [delete_loop app].
  - rewrite E, String.eqb_refl. f_equal. simpl. lia.
  - apply not_in_ids_cons in Hn as [N Hn].
    destruct (String.eqb_spec (apt_id a) appointment_id) as [E'|_]; [congruence|].
    rewrite (IH Hn). f_equal. simpl. lia.
Qed.


Lemma delete_sublist appointment_id db :
  snd (delete_appointment appointment_id db) `sublist_of` db.
Proof.
  unfold delete_appointment. destruct (delete_loop _ _ db); simpl;
    [apply sublist_delete | reflexivity].
Qed.

(** The store after update_appointment_status. *)
Lemma update_store_eval appointment_id new_status db :
  ((appointment_id ∉ ids db)
   /\ snd (update_appointment_status appointment_id new_status db) = db)
  \/ (exists l1 apt l2,
        db = (l1 ++ apt :: l2)%list
        /\ (appointment_id ∉ ids l1) /\ apt_id apt = appointment_id
        /\ snd (update_appointment_status appointment_id new_status db)
           = (l1 ++ with_status apt new_status :: l2)%list).
Proof.
  unfold update_appointment_status.
  destruct (decide (appointment_id ∈ ids db)) as [Hin|Hn].
  - right. destruct (first_occurrence _ _ Hin) as (l1 & apt & l2 & -> & Hn & Ea).
    exists l1, apt, l2. rewrite (update_loop_split _ new_status _ _ l2 Hn Ea). done.
  - left. split; [exact Hn|].
    rewrite (proj2 (update_loop_none _ new_status _) Hn). reflexivity.
Qed.

(** C8 (amended). update_appointment_status fails with NotFound exactly
    when no stored appointment has the id, and the store is then as it was;
    otherwise, when the first record with that id passes response
    validation with its new status, which asks of the status that it be
    one of the five enumerated values, the call sets the status of that
    record, leaves every other record alone and returns the updated
    record. delete_appointment fails with NotFound exactly when no stored
    appointment has the id, and otherwise removes the first record with
    that id and returns true. *)
Theorem update_delete_spec appointment_id new_status db :
  ((exists msg, fst (update_appointment_status appointment_id new_status db)
                = Raise (NotFound msg))
   <-> appointment_id ∉ ids db)
  /\ ((exists msg, fst (delete_appointment appointment_id db) = Raise (NotFound msg))
      <-> appointment_id ∉ ids db)
  /\ (appointment_id ∉ ids db ->
      snd (update_appointment_status appointment_id new_status db) = db
      /\ snd (delete_appointment appointment_id db) = db)
  /\ (appointment_id ∈ ids db ->
      exists l1 apt l2,
        db = (l1 ++ apt :: l2)%list
        /\ (appointment_id ∉ ids l1) /\ apt_id apt = appointment_id
        /\ (validate_response (with_status apt new_status) = true ->
            update_appointment_status appointment_id new_status db
            = (Ok (with_status apt new_status),
               (l1 ++ with_status apt new_status :: l2)%list))
        /\ (validate_response apt = true -> literal statuses new_status = true ->
            validate_response (with_status apt new_status) = true)
        /\ delete_appointment appointment_id db = (Ok true, (l1 ++ l2)%list)).
Proof.
  split; [|split; [|split]].
  - unfold update_appointment_status.
    destruct (update_loop _ _ db) as [[r db']|] eqn:E; simpl.
    + assert (appointment_id ∈ ids db) as Hin.
      { destruct (decide (appointment_id ∈ ids db)) as [?|Hn]; [done|].
        apply (update_loop_none _ new_status) in Hn. congruence. }
      split; [|done]. intros [msg H]. unfold AppointmentResponse in H.
      destruct (validate_response r); discriminate.
    + split; [intros _; eapply update_loop_none; eassumption | eauto].
  - unfold delete_appointment.
    destruct (delete_loop _ _ db) as [i|] eqn:E; simpl.
    + split; [intros [msg H]; discriminate|].
      intros Hn. apply (delete_loop_none _ 0%nat) in Hn. congruence.
    + split; [intros _; eapply delete_loop_none; eassumption | eauto].
  - intros Hn. unfold update_appointment_status, delete_appointment.
    pose proof (proj2 (update_loop_none _ new_status _) Hn) as ->.
    pose proof (proj2 (delete_loop_none _ 0%nat _) Hn) as ->. done.
  - intros Hin. destruct (first_occurrence _ _ Hin) as (l1 & apt & l2 & -> & Hn & Ea).
    exists l1, apt, l2. unfold update_appointment_status, delete_appointment.
    rewrite (update_loop_split _ new_status _ _ l2 Hn Ea).
    rewrite (delete_loop_split _ 0%nat _ _ l2 Hn Ea). simpl.
    repeat split; try done.
    + unfold AppointmentResponse. intros ->. reflexivity.
    + unfold validate_response. simpl. intros [-> _]%andb_prop ->. reflexivity.
    + f_equal. apply delete_middle.
Qed.

(** C8, as stated, fails: apt-001 is stored, yet updating it to a status
    outside the enumerated values raises a validation error instead of
    returning the updated record. *)
Lemma update_unlisted_status_raises :
  "apt-001" ∈ ids appointments_db
  /\ fst (update_appointment_status "apt-001" "Pending" appointments_db)
     = Raise ValidationError.
Proof.
  split; [|vm_compute; reflexivity].
  apply list_elem_of_In. vm_compute. left. reflexivity.
Qed.

(** C6 is broken by the code: update_appointment_status assigns the new
    status before the response model validates it, so a status outside the
    enumerated values is stored although the call raises. *)
Theorem update_stores_unlisted_status :
  literal statuses "Pending" = false
  /\ update_appointment_status "apt-001" "Pending" appointments_db
     = (Raise ValidationError,
        mk_appointment "apt-001" "Rajesh Kumar" "2025-12-27" "09:00" 30
          "Dr. Sarah Johnson" "Pending" "In-person" "2025-12-26T10:30:00Z"
        :: tail appointments_db)
  /\ existsb (fun apt => negb (literal statuses (apt_status apt)))
       (run [UpdateStatus "apt-001" "Pending"] appointments_db) = true.
Proof. repeat split; vm_compute; reflexivity. Qed.
End UpdateDelete.

(** ** The appointment service: create *)

Section CreateFacts.
Import appointment_service.

Lemma is_digit_digit_char n : is_digit (digit_char n) = true.
Proof.
  unfold digit_char.
  assert (Z.to_nat (n mod 10) < 10)%nat as H
    by (pose proof (Z.mod_pos_bound n 10); lia).
  destruct (Z.to_nat (n mod 10)) as [|[|[|[|[|[|[|[|[|[|k]]]]]]]]]];
    [reflexivity .. | lia].
Qed.






Lemma bind_Raise {A B} (r : result A) (k : A -> result B) e :
  r ≫= k = Raise e <-> r = Raise e \/ exists a, r = Ok a /\ k a = Raise e.
Proof.
  destruct r as [a|e']; unfold mbind, result_bind, rbind.
  - split; [eauto | intros [[=] | (a' & [= <-] & H)]; exact H].
  - split; [intros [= ->]; auto | intros [[= ->] | (a' & [=] & _)]; reflexivity].
Qed.

Lemma strptime_HM_Raise s e : strptime_HM s = Raise e -> e = StrptimeError.
Proof. unfold strptime_HM. intros H. repeat case_match; congruence. Qed.

Lemma parse_time_Raise s e : parse_time s = Raise e -> e = StrptimeError.
Proof.
  unfold parse_time. intros [H | (a & _ & [=])]%bind_Raise.
  exact (strptime_HM_Raise _ _ H).
Qed.

Lemma calculate_end_time_Raise s d e :
  calculate_end_time s d = Raise e -> e = StrptimeError \/ e = OverflowError.
Proof.
  unfold calculate_end_time.
  intros [H | (dt & _ & [H | (dt' & _ & [=])]%bind_Raise)]%bind_Raise.
  - left. exact (parse_time_Raise _ _ H).
  - right. unfold dt_add_minutes in H. case_match; congruence.
Qed.

Lemma check_time_overlap_Raise s1 e1 s2 e2 e :
  check_time_overlap s1 e1 s2 e2 = Raise e -> e = StrptimeError.
Proof.
  unfold check_time_overlap. intros H.
  repeat (apply bind_Raise in H as [H | (? & _ & H)];
          [exact (parse_time_Raise _ _ H)|]).
  discriminate.
Qed.

Lemma conflict_scan_Raise input_data new_end_time db e :
  conflict_scan input_data new_end_time db = Raise e ->
  e = StrptimeError \/ e = OverflowError \/ exists msg, e = TimeConflict msg.
Proof.
  induction db as [|a db IH]; cbn [conflict_scan]; [discriminate|].
  destruct (is_candidate _ _); [|exact IH].
  intros [H | (t & _ & [H | (ov & _ & H)]%bind_Raise)]%bind_Raise.
  - apply calculate_end_time_Raise in H. tauto.
  - apply check_time_overlap_Raise in H. tauto.
  - destruct ov; [|auto]. injection H as <-. eauto.
Qed.

(** The two ways a call of create_appointment can go: the conflict check
    raises and the store is as it was, or the new row is appended and then
    validated as a response. *)
Lemma create_appointment_cases input_data uuid_hex utcnow db :
  (exists e, create_appointment input_data uuid_hex utcnow db = (Raise e, db)
             /\ e <> ValidationError)
  \/ create_appointment input_data uuid_hex utcnow db
     = (AppointmentResponse (new_appointment input_data uuid_hex utcnow),
        (db ++ [new_appointment input_data uuid_hex utcnow])%list).
Proof.
  unfold create_appointment.
  destruct (calculate_end_time _ _ ≫= _) as [[]|e] eqn:E; [right; reflexivity|].
  left. exists e. split; [reflexivity|]. intros ->.
  apply bind_Raise in E as [E | (t & _ & E)].
  - apply calculate_end_time_Raise in E as [?|?]; discriminate.
  - apply conflict_scan_Raise in E as [?|[?|[? ?]]]; discriminate.
Qed.
End CreateFacts.

Section CreateProperties.
Import appointment_service.

(** C5. If create_appointment fails with a Conflict error, the store is
    exactly as it was before the call: nothing is appended, removed or
    modified. *)
Theorem create_conflict_keeps_store input_data uuid_hex utcnow db msg db' :
  create_appointment input_data uuid_hex utcnow db = (Raise (TimeConflict msg), db') ->
  db' = db.
Proof.
  intros H.
  destruct (create_appointment_cases input_data uuid_hex utcnow db)
    as [(e & E & _) | E]; rewrite E in H.
  - congruence.
  - unfold AppointmentResponse in H. destruct (validate_response _); discriminate.
Qed.

Lemma create_conflict_keeps_store_witness :
  snd (create_appointment morning_overlap uuid_c sample_utcnow appointments_db)
  = appointments_db.
Proof.
  apply (create_conflict_keeps_store morning_overlap uuid_c sample_utcnow appointments_db
           "Time conflict: Dr. Sarah Johnson already has an appointment from 09:00 to 09:30 on 2025-12-27").
  vm_compute. reflexivity.
Defined.



End CreateProperties.

(** ** Runs of the service *)

Section Runs.
Import appointment_service.









End Runs.

(** ** The conflict check of create_appointment *)

Section ConflictCheck.
Import appointment_service.

Lemma calculate_end_time_eval s t d :
  conflict_detector.time_to_minutes s = Ok t ->
  calculate_end_time s d
  = if representable (t + d) then Ok (clock (t + d)) else Raise OverflowError.
Proof.
  intros (h & m & E & -> & _)%time_to_minutes_inv.
  unfold calculate_end_time, parse_time, dt_add_minutes, representable. rewrite E.
  cbn [mbind result_bind rbind fst snd dt_hour dt_minute dt_ordinal].
  destruct (_ && _); reflexivity.
Qed.

Lemma parse_time_eval s t :
  conflict_detector.time_to_minutes s = Ok t ->
  parse_time s = Ok (mk_datetime ordinal_1900 (t / 60) (t mod 60)).
Proof.
  intros (h & m & E & -> & Hh & Hm)%time_to_minutes_inv.
  unfold parse_time. rewrite E. cbn [mbind result_bind rbind fst snd].
  do 2 f_equal.
  - apply (Z.div_unique _ _ h m); lia.
  - apply (Z.mod_unique _ _ h m); lia.
Qed.

Lemma parse_time_clock x :
  parse_time (clock x)
  = Ok (mk_datetime ordinal_1900 (x mod 1440 / 60) (x mod 1440 mod 60)).
Proof.
  pose proof (Z.mod_pos_bound x 1440). pose proof (Z.mod_pos_bound x 60).
  assert (0 <= x mod 1440 / 60 <= 23).
  { split; [apply Z.div_pos; lia|].
    assert (x mod 1440 / 60 < 24) by (apply Z.div_lt_upper_bound; lia). lia. }
  assert (x mod 1440 mod 60 = x mod 60) as ->.
  { rewrite (Z.div_mod x 1440) at 2 by lia.
    replace (1440 * (x / 1440) + x mod 1440)
      with (x mod 1440 + 24 * (x / 1440) * 60) by ring.
    symmetry. apply Z.mod_add. lia. }
  unfold parse_time.
  change (clock x)
    with (strftime_HM (mk_datetime ordinal_1900 (x mod 1440 / 60) (x mod 60))).
  rewrite strptime_strftime by lia. reflexivity.
Qed.

(** Two datetimes of one date compare as their minutes since midnight. *)
Lemma dt_ltb_same_date o t1 t2 :
  0 <= t1 -> 0 <= t2 ->
  dt_ltb (mk_datetime o (t1 / 60) (t1 mod 60)) (mk_datetime o (t2 / 60) (t2 mod 60))
  = (t1 <? t2).
Proof.
  intros H1 H2. unfold dt_ltb. cbn [dt_ordinal dt_hour dt_minute].
  rewrite Z.ltb_irrefl, Z.eqb_refl. cbn [orb andb].
  pose proof (Z.div_mod t1 60). pose proof (Z.div_mod t2 60).
  pose proof (Z.mod_pos_bound t1 60). pose proof (Z.mod_pos_bound t2 60).
  destruct (Z.ltb_spec (t1 / 60) (t2 / 60)); cbn [orb].
  - symmetry. apply Z.ltb_lt. lia.
  - destruct (Z.eqb_spec (t1 / 60) (t2 / 60)); cbn [andb].
    + destruct (Z.ltb_spec (t1 mod 60) (t2 mod 60));
        symmetry; [apply Z.ltb_lt | apply Z.ltb_ge]; lia.
    + symmetry. apply Z.ltb_ge. lia.
Qed.

Lemma check_time_overlap_eval s1 t1 x s2 t2 y :
  conflict_detector.time_to_minutes s1 = Ok t1 ->
  conflict_detector.time_to_minutes s2 = Ok t2 ->
  check_time_overlap s1 (clock x) s2 (clock y)
  = Ok ((t1 <? y mod 1440) && (t2 <? x mod 1440)).
Proof.
  intros E1 E2. unfold check_time_overlap.
  pose proof (time_to_minutes_range _ _ E1). pose proof (time_to_minutes_range _ _ E2).
  pose proof (Z.mod_pos_bound x 1440). pose proof (Z.mod_pos_bound y 1440).
  rewrite (parse_time_eval _ _ E1), (parse_time_eval _ _ E2), !parse_time_clock.
  cbn [mbind result_bind rbind].
  rewrite !dt_ltb_same_date by lia. reflexivity.
Qed.

(** The loop stops at the first row that passes the wrapped test and
    names it in the error; without such a row it runs to the end. *)
Lemma conflict_scan_eval input_data new_start db :
  conflict_detector.time_to_minutes (in_time input_data) = Ok new_start ->
  Forall (fun apt => is_candidate input_data apt = true -> computable_end apt = true) db ->
  conflict_scan input_data (clock (new_start + in_duration input_data)) db
  = match List.find (wrapped_conflict input_data) db with
    | Some existing =>
        Raise (TimeConflict (conflict_message input_data existing (displayed_end existing)))
    | None => Ok tt
    end.
Proof.
  intros En HF. induction HF as [|a db Ha HF IH]; [reflexivity|].
  cbn [conflict_scan List.find]. unfold wrapped_conflict at 1. rewrite En.
  destruct (is_candidate input_data a) eqn:C; cbn [andb]; [|exact IH].
  specialize (Ha eq_refl). unfold computable_end in Ha.
  destruct (conflict_detector.time_to_minutes (apt_time a)) as [e|] eqn:Ea; [|discriminate].
  rewrite (calculate_end_time_eval _ _ _ Ea), Ha. cbn [mbind result_bind rbind].
  rewrite (check_time_overlap_eval _ _ _ _ _ _ En Ea). cbn [mbind result_bind rbind].
  destruct (_ && _); [|exact IH].
  unfold displayed_end. rewrite Ea. reflexivity.
Qed.
End ConflictCheck.

Section ConflictProperties.
Import appointment_service.

(** What create_appointment does, for a request whose own end time can be
    computed, on a store whose candidate rows have computable end times:
    the first row, in insertion order, that passes the wrapped test stops
    the call with an error naming the doctor, that row's time range and
    the date, and the store is untouched; without such a row the new
    record is appended. *)
Lemma create_appointment_eval input_data uuid_hex utcnow db new_start :
  conflict_detector.time_to_minutes (in_time input_data) = Ok new_start ->
  representable (new_start + in_duration input_data) = true ->
  Forall (fun apt => is_candidate input_data apt = true -> computable_end apt = true) db ->
  create_appointment input_data uuid_hex utcnow db
  = match List.find (wrapped_conflict input_data) db with
    | Some existing =>
        (Raise (TimeConflict
                  ("Time conflict: " ++ in_doctor_name input_data
                   ++ " already has an appointment from " ++ apt_time existing
                   ++ " to " ++ displayed_end existing
                   ++ " on " ++ in_date input_data)), db)
    | None =>
        (AppointmentResponse (new_appointment input_data uuid_hex utcnow),
         (db ++ [new_appointment input_data uuid_hex utcnow])%list)
    end.
Proof.
  intros En R HF. unfold create_appointment.
  rewrite (calculate_end_time_eval _ _ _ En), R. cbn [mbind result_bind rbind].
  rewrite (conflict_scan_eval _ _ _ En HF).
  destruct (List.find _ db); reflexivity.
Qed.

(** For two slots that are over by midnight the wrapped test is the test
    of the specification. *)
Lemma wrapped_conflict_same_day input_data existing new_start existing_start :
  conflict_detector.time_to_minutes (in_time input_data) = Ok new_start ->
  conflict_detector.time_to_minutes (apt_time existing) = Ok existing_start ->
  same_day new_start (in_duration input_data) = true ->
  same_day existing_start (apt_duration existing) = true ->
  wrapped_conflict input_data existing = spec_conflict input_data existing.
Proof.
  intros En Ee [Hn1 Hn2]%andb_prop [He1 He2]%andb_prop.
  pose proof (time_to_minutes_range _ _ En). pose proof (time_to_minutes_range _ _ Ee).
  apply Z.leb_le in Hn1, He1. apply Z.ltb_lt in Hn2, He2.
  unfold wrapped_conflict, spec_conflict, is_candidate, literal. rewrite En, Ee.
  rewrite !Z.mod_small by lia. cbn [existsb].
  rewrite orb_false_r, negb_orb, !andb_assoc. reflexivity.
Qed.

(** C2 is broken by the code at midnight. The store holds a Scheduled
    appointment of Dr. Sarah Johnson on 2025-12-27 from 23:00 for 60
    minutes; a request for the same doctor and date from 23:30 for 30
    minutes passes the overlap test of the specification against it, yet
    create_appointment returns the new record and appends it, because both
    end times are formatted as 00:00. *)
Theorem create_misses_conflict_at_midnight :
  existsb (spec_conflict late_overlap) store_with_late_booking = true
  /\ calculate_end_time "23:00" 60 = Ok "00:00"
  /\ calculate_end_time "23:30" 30 = Ok "00:00"
  /\ create_appointment late_overlap uuid_c sample_utcnow store_with_late_booking
     = (Ok late_overlap_record, (store_with_late_booking ++ [late_overlap_record])%list).
Proof. repeat split; vm_compute; reflexivity. Qed.
End ConflictProperties.

(** ** Validated runs *)

Section ValidatedRuns.
Import appointment_service.

Lemma valid_row_listed apt : valid_row apt -> listed apt.
Proof. unfold valid_row, validate_response, listed. intros [_ H]%andb_prop. exact H. Qed.

Lemma with_status_valid apt new_status :
  valid_row apt -> literal statuses new_status = true ->
  valid_row (with_status apt new_status).
Proof.
  unfold valid_row, validate_response. cbn [with_status apt_patient_name apt_date
    apt_time apt_duration apt_doctor_name apt_mode apt_status].
  intros [-> _]%andb_prop ->. reflexivity.
Qed.

Lemma create_status_listed status :
  match status with
  | Some s => literal create_statuses s
  | None => true
  end = true ->
  literal statuses (status_or_default status) = true.
Proof.
  unfold status_or_default, truthy.
  destruct status as [s|]; [|reflexivity].
  destruct (String.eqb_spec s "") as [->|_]; [discriminate|].
  unfold literal, create_statuses, statuses. cbn [existsb]. intros H.
  repeat (apply orb_prop in H as [H|H]; [rewrite H; rewrite ?orb_true_r; reflexivity|]).
  discriminate.
Qed.

Lemma new_appointment_valid input_data uuid_hex utcnow :
  validate_create_input input_data = true ->
  valid_row (new_appointment input_data uuid_hex utcnow).
Proof.
  unfold validate_create_input, valid_row, validate_response.
  cbn [new_appointment apt_patient_name apt_date apt_time apt_duration
       apt_doctor_name apt_mode apt_status].
  intros [-> H]%andb_prop. apply create_status_listed in H. rewrite H. reflexivity.
Qed.

Lemma step_valid db r :
  validated_run [r] = true -> Forall valid_row db -> Forall valid_row (step db r).
Proof.
  unfold validated_run. cbn [forallb]. rewrite andb_true_r. intros V HF.
  destruct r as [input_data uuid_hex utcnow | i st | i]; cbn [step].
  - destruct (create_appointment_cases input_data uuid_hex utcnow db)
      as [(e & -> & _) | ->]; [exact HF|].
    cbn [snd]. apply Forall_app. split; [exact HF|].
    apply Forall_singleton, new_appointment_valid, V.
  - destruct (update_store_eval i st db)
      as [[_ ->] | (l1 & a & l2 & -> & _ & _ & ->)]; [exact HF|].
    apply Forall_app in HF as [H1 [Ha H2]%Forall_cons].
    apply Forall_app. split; [exact H1|]. apply Forall_cons.
    split; [apply with_status_valid; assumption | exact H2].
  - rewrite Forall_forall in *. intros a Ha. apply HF.
    eapply elem_of_sublist; [exact Ha | apply delete_sublist].
Qed.

Lemma seeded_valid : Forall valid_row appointments_db.
Proof.
  assert (forallb (fun apt => validate_response apt) appointments_db = true) as H
    by (vm_compute; reflexivity).
  rewrite forallb_forall in H. apply Forall_forall.
  intros a Ha%list_elem_of_In. exact (H a Ha).
Qed.

(** With every input checked by the schema layer before the call, as
    create_appointment's callers do, every stored row keeps passing
    response validation. *)
Lemma rows_valid_when_validated rs :
  validated_run rs = true -> Forall valid_row (run rs appointments_db).
Proof.
  generalize seeded_valid. generalize appointments_db.
  induction rs as [|r rs IH]; intros db H0 V; [exact H0|].
  unfold validated_run in V. cbn [forallb] in V. apply andb_prop in V as [V1 V2].
  unfold run. cbn [foldl]. apply IH; [|exact V2].
  apply step_valid; [|exact H0]. unfold validated_run. cbn [forallb]. rewrite V1. reflexivity.
Qed.

(** In particular the statuses in the store stay within the enumerated
    values along such a run. *)
Lemma statuses_listed_when_validated rs :
  validated_run rs = true -> Forall listed (run rs appointments_db).
Proof.
  intros V. eapply Forall_impl; [exact (rows_valid_when_validated rs V)|].
  exact valid_row_listed.
Qed.

(** On a store of valid rows get_appointments returns its selection. *)
Lemma get_appointments_valid date status doctor_name db :
  Forall valid_row db ->
  get_appointments date status doctor_name db
  = Ok (List.filter (selected date status doctor_name) db).
Proof.
  intros HF. rewrite filter_passes, to_responses_eval.
  replace (forallb _ _) with true; [reflexivity|].
  symmetry. apply forallb_forall. intros a [Ha _]%List.filter_In.
  rewrite Forall_forall in HF. apply HF, list_elem_of_In, Ha.
Qed.

Lemma valid_row_computable apt : valid_row apt -> computable_end apt = true.
Proof.
  unfold valid_row, validate_response, validate_base. intros H.
  repeat (apply andb_prop in H as [H ?]).
  unfold computable_end, conflict_detector.time_to_minutes, conflict_detector.parse_time.
  destruct (strptime_HM (apt_time apt)) as [[h m]|] eqn:E; [|discriminate].
  cbn [mbind result_bind rbind fst snd dt_hour dt_minute].
  pose proof (strptime_HM_range _ _ _ E) as [Hh Hm].
  eapply (representable_duration (apt_time apt)).
  - unfold conflict_detector.time_to_minutes, conflict_detector.parse_time.
    rewrite E. reflexivity.
  - match goal with H : (15 <=? _) = true |- _ => apply Z.leb_le in H end.
    match goal with H : (_ <=? 240) = true |- _ => apply Z.leb_le in H end. lia.
Qed.

(** create_appointment on a validated request and a store of valid rows:
    the first row that passes the wrapped test stops the call and leaves
    the store alone; without one the new record is appended and returned. *)
Lemma create_appointment_validated input_data uuid_hex utcnow db :
  validate_create_input input_data = true -> Forall valid_row db ->
  create_appointment input_data uuid_hex utcnow db
  = match List.find (wrapped_conflict input_data) db with
    | Some existing =>
        (Raise (TimeConflict
                  ("Time conflict: " ++ in_doctor_name input_data
                   ++ " already has an appointment from " ++ apt_time existing
                   ++ " to " ++ displayed_end existing
                   ++ " on " ++ in_date input_data)), db)
    | None =>
        (Ok (new_appointment input_data uuid_hex utcnow),
         (db ++ [new_appointment input_data uuid_hex utcnow])%list)
    end.
Proof.
  intros V HF.
  pose proof (new_appointment_valid _ uuid_hex utcnow V) as Vn.
  pose proof (valid_row_computable _ Vn) as C. unfold computable_end in C.
  cbn [new_appointment apt_time apt_duration] in C.
  destruct (conflict_detector.time_to_minutes (in_time input_data)) as [t|] eqn:En;
    [|discriminate].
  rewrite (create_appointment_eval _ uuid_hex utcnow db t En C).
  - unfold AppointmentResponse. rewrite Vn. reflexivity.
  - eapply Forall_impl; [exact HF|]. intros a Ha _. exact (valid_row_computable a Ha).
Qed.
End ValidatedRuns.

Section SameDay.
Import appointment_service.

(** Away from midnight the code and the specification agree: when the
    request and every candidate row are over by midnight, create_appointment
    fails with a conflict exactly when some stored row passes the test of
    the specification. *)
Lemma create_conflict_iff_same_day input_data uuid_hex utcnow db new_start :
  conflict_detector.time_to_minutes (in_time input_data) = Ok new_start ->
  same_day new_start (in_duration input_data) = true ->
  Forall (fun apt =>
            is_candidate input_data apt = true ->
            exists existing_start,
              conflict_detector.time_to_minutes (apt_time apt) = Ok existing_start
              /\ same_day existing_start (apt_duration apt) = true) db ->
  (exists msg, fst (create_appointment input_data uuid_hex utcnow db)
               = Raise (TimeConflict msg))
  <-> exists existing, existing ∈ db /\ spec_conflict input_data existing = true.
Proof.
  intros En Sn HF.
  pose proof (time_to_minutes_range _ _ En) as Rn.
  assert (forall t d, 0 <= t < 1440 -> same_day t d = true -> representable (t + d) = true)
    as Rep.
  { intros t d Ht [H1%Z.leb_le H2%Z.ltb_lt]%andb_prop.
    unfold representable. rewrite (Z.div_small (t + d) 1440) by lia. reflexivity. }
  assert (forall a, a ∈ db -> wrapped_conflict input_data a = spec_conflict input_data a)
    as Agree.
  { intros a Ha. rewrite Forall_forall in HF. specialize (HF a Ha).
    destruct (is_candidate input_data a) eqn:C.
    - destruct (HF eq_refl) as (e & Ee & Se).
      exact (wrapped_conflict_same_day _ _ _ _ En Ee Sn Se).
    - unfold wrapped_conflict, spec_conflict. rewrite C.
      unfold is_candidate, literal in C. cbn [existsb] in C.
      rewrite orb_false_r, negb_orb, !andb_assoc in C. rewrite C. reflexivity. }
  rewrite (create_appointment_eval _ uuid_hex utcnow db _ En (Rep _ _ Rn Sn)).
  - destruct (List.find (wrapped_conflict input_data) db) as [a|] eqn:F.
    + apply List.find_some in F as [Ha%list_elem_of_In Wa].
      split; [|eauto]. intros _. exists a. split; [exact Ha|].
      rewrite <- (Agree a Ha). exact Wa.
    + split.
      * intros [msg H]. cbn [fst] in H. unfold AppointmentResponse in H.
        destruct (validate_response _); discriminate.
      * intros (a & Ha & Sa). rewrite <- (Agree a Ha) in Sa.
        pose proof (List.find_none _ _ F a (proj1 (list_elem_of_In _ _) Ha)). congruence.
  - eapply Forall_impl; [exact HF|]. intros a Ha C.
    destruct (Ha C) as (e & Ee & Se). unfold computable_end. rewrite Ee.
    exact (Rep _ _ (time_to_minutes_range _ _ Ee) Se).
Qed.
End SameDay.

(** * Further properties *)

(** ** Time strings *)

Section TimeStrings.
Import conflict_detector.

Lemma re_H_length {A} s k (x : A) :
  re_H s k = Some x ->
  exists h r, k h r = Some x
              /\ (String.length r < String.length s <= String.length r + 2)%nat.
Proof.
  unfold re_H, or_else. intros H.
  repeat case_match; simplify_eq;
    eexists _, _; (split; [eassumption|]); cbn [String.length]; lia.
Qed.

Lemma re_M_length {A} s k (x : A) :
  re_M s k = Some x ->
  exists m r, k m r = Some x
              /\ (String.length r < String.length s <= String.length r + 2)%nat.
Proof.
  unfold re_M, or_else. intros H.
  repeat case_match; simplify_eq;
    eexists _, _; (split; [eassumption|]); cbn [String.length]; lia.
Qed.

Lemma strptime_HM_length s h m :
  strptime_HM s = Ok (h, m) -> (3 <= String.length s <= 5)%nat.
Proof.
  unfold strptime_HM, match_HM. intros H.
  destruct (re_H _ _) as [[[h' m'] r]|] eqn:E; [|done].
  apply re_H_length in E as (h0 & r0 & E & L0).
  apply re_lit_inv in E as (r1 & -> & E).
  apply re_M_length in E as (m0 & r2 & E & L2).
  destruct r; simplify_eq. cbn [String.length] in *. lia.
Qed.

(** X1. parse_time accepts every zero-padded HH:MM with an hour up to 23
    and a minute up to 59 and reads exactly those numbers, on 1900-01-01;
    whatever string it accepts has three to five characters and gives an
    hour within 0..23 and a minute within 0..59. *)
Theorem parse_time_accepts :
  (forall h m, 0 <= h <= 23 -> 0 <= m <= 59 ->
     parse_time (pad2 h ++ ":" ++ pad2 m) = Ok (mk_datetime ordinal_1900 h m))
  /\ (forall s dt, parse_time s = Ok dt ->
        dt_ordinal dt = ordinal_1900
        /\ 0 <= dt_hour dt <= 23 /\ 0 <= dt_minute dt <= 59
        /\ (3 <= String.length s <= 5)%nat).
Proof.
  split.
  - intros h m Hh Hm. unfold parse_time.
    change (pad2 h ++ ":" ++ pad2 m) with (strftime_HM (mk_datetime ordinal_1900 h m)).
    rewrite strptime_strftime by assumption. reflexivity.
  - intros s dt. unfold parse_time.
    destruct (strptime_HM s) as [[h m]|] eqn:E; [|discriminate].
    cbn [mbind result_bind rbind fst snd]. intros [= <-].
    cbn [dt_ordinal dt_hour dt_minute].
    pose proof (strptime_HM_range _ _ _ E) as [Hh Hm].
    pose proof (strptime_HM_length _ _ _ E). auto.
Qed.

Lemma time_to_minutes_clock x : time_to_minutes (clock x) = Ok (x mod 1440).
Proof.
  unfold time_to_minutes.
  change (parse_time (clock x)) with (appointment_service.parse_time (clock x)).
  rewrite parse_time_clock. cbn [mbind result_bind rbind dt_hour dt_minute].
  f_equal. pose proof (Z.div_mod (x mod 1440) 60). lia.
Qed.

(** X2. For a start time of t minutes and a number of minutes d, positive
    or negative, that keeps the datetime in range, add_minutes returns a
    well-formed time string, and time_to_minutes reads it back as
    (t + d) mod 1440: the day is dropped. *)
Theorem time_to_minutes_add_minutes s t d :
  time_to_minutes s = Ok t -> representable (t + d) = true ->
  exists e, add_minutes s d = Ok e /\ time_to_minutes e = Ok ((t + d) mod 1440).
Proof.
  intros E R. rewrite (add_minutes_eval _ _ _ E), R.
  eexists. split; [reflexivity | apply time_to_minutes_clock].
Qed.

Lemma time_to_minutes_add_minutes_witness :
  exists e, add_minutes "23:50" (-30 - 1440) = Ok e
            /\ time_to_minutes e = Ok ((1430 + (-30 - 1440)) mod 1440).
Proof.
  apply (time_to_minutes_add_minutes "23:50" 1430 (-30 - 1440)); reflexivity.
Defined.

Lemma clock_mod x : clock (x mod 1440) = clock x.
Proof.
  unfold clock. rewrite Z.mod_mod by lia.
  replace (x mod 1440 mod 60) with (x mod 60); [reflexivity|].
  rewrite (Z.div_mod x 1440) at 1 by lia.
  replace (1440 * (x / 1440) + x mod 1440)
    with (x mod 1440 + 24 * (x / 1440) * 60) by ring.
  apply Z.mod_add. lia.
Qed.

Lemma clock_shift x y : clock (x mod 1440 + y) = clock (x + y).
Proof.
  rewrite <- (clock_mod (x mod 1440 + y)), <- (clock_mod (x + y)).
  f_equal. rewrite Zplus_mod_idemp_l. reflexivity.
Qed.

(** X3. Adding a minutes and then b minutes, both non-negative and at most
    4,260,186,720 in total, gives the same string as adding a + b at
    once. *)
Theorem add_minutes_add_minutes s t a b :
  time_to_minutes s = Ok t -> 0 <= a -> 0 <= b -> a + b <= 4260186720 ->
  (e ← add_minutes s a; add_minutes e b) = add_minutes s (a + b).
Proof.
  intros E Ha Hb Hab.
  rewrite !(add_minutes_eval _ _ _ E).
  rewrite (representable_duration _ _ a E) by lia.
  rewrite (representable_duration _ _ (a + b) E) by lia.
  cbn [mbind result_bind rbind].
  rewrite (add_minutes_eval _ _ _ (time_to_minutes_clock (t + a))).
  rewrite (representable_duration _ _ b (time_to_minutes_clock (t + a))) by lia.
  rewrite clock_shift, Z.add_assoc. reflexivity.
Qed.

Lemma add_minutes_add_minutes_witness :
  (e ← add_minutes "22:40" 100; add_minutes e 45) = add_minutes "22:40" (100 + 45).
Proof.
  apply (add_minutes_add_minutes "22:40" 1360 100 45); [reflexivity | lia | lia | lia].
Defined.
End TimeStrings.

(** ** More on the conflict detector *)

Section DetectorMore.
Import conflict_detector.

Lemma time_to_minutes_Raise s e : time_to_minutes s = Raise e -> e = StrptimeError.
Proof.
  unfold time_to_minutes, parse_time.
  destruct (strptime_HM s) as [[h m]|e'] eqn:E; [discriminate|].
  cbn [mbind result_bind rbind]. intros [= <-]. exact (strptime_HM_Raise _ _ E).
Qed.

Lemma detect_overlap_Raise_l s1 d1 s2 d2 buffer e :
  time_to_minutes s1 = Raise e ->
  detect_overlap s1 d1 s2 d2 buffer = Raise StrptimeError.
Proof.
  intros E. unfold detect_overlap. rewrite E.
  rewrite (time_to_minutes_Raise _ _ E). reflexivity.
Qed.

Lemma detect_overlap_Raise_r s1 d1 s2 d2 buffer e :
  time_to_minutes s2 = Raise e ->
  detect_overlap s1 d1 s2 d2 buffer = Raise StrptimeError.
Proof.
  intros E. unfold detect_overlap. rewrite E.
  rewrite (time_to_minutes_Raise _ _ E).
  destruct (time_to_minutes s1) as [t1|e1] eqn:E1; [reflexivity|].
  rewrite (time_to_minutes_Raise _ _ E1). reflexivity.
Qed.

(** X4. Whether detect_overlap reports a conflict does not depend on the
    order of the two slots: swapping them gives the same flag, or the same
    exception when the call raises. *)
Theorem detect_overlap_symmetric s1 d1 s2 d2 buffer :
  flag_of (detect_overlap s1 d1 s2 d2 buffer)
  = flag_of (detect_overlap s2 d2 s1 d1 buffer).
Proof.
  destruct (time_to_minutes s1) as [t1|e1] eqn:E1.
  - destruct (time_to_minutes s2) as [t2|e2] eqn:E2.
    + rewrite (detect_overlap_eval _ _ _ _ _ _ buffer E1 E2),
        (detect_overlap_eval _ _ _ _ _ _ buffer E2 E1).
      rewrite (andb_comm (t2 <? _)).
      destruct (_ && _); [|reflexivity].
      destruct (representable (t1 + d1)), (representable (t2 + d2)); reflexivity.
    + rewrite (detect_overlap_Raise_r _ _ _ _ _ _ E2), (detect_overlap_Raise_l _ _ _ _ _ _ E2).
      reflexivity.
  - rewrite (detect_overlap_Raise_l _ _ _ _ _ _ E1), (detect_overlap_Raise_r _ _ _ _ _ _ E1).
    reflexivity.
Qed.



(** X6. A conflict is never lost by waiting longer: when two slots
    conflict with some buffer and durations, they still conflict with any
    larger buffer and any longer durations that keep the end times in
    range. *)
Theorem detect_overlap_monotone s1 d1 s2 d2 buffer d1' d2' buffer' t1 t2 :
  time_to_minutes s1 = Ok t1 -> time_to_minutes s2 = Ok t2 ->
  d1 <= d1' -> d2 <= d2' -> buffer <= buffer' ->
  representable (t1 + d1') = true -> representable (t2 + d2') = true ->
  flag_of (detect_overlap s1 d1 s2 d2 buffer) = Ok true ->
  flag_of (detect_overlap s1 d1' s2 d2' buffer') = Ok true.
Proof.
  intros E1 E2 H1 H2 Hb R1 R2.
  rewrite !(detect_overlap_eval _ _ _ _ _ _ _ E1 E2), R1, R2.
  destruct ((t1 <? t2 + d2 + buffer) && (t2 <? t1 + d1 + buffer)) eqn:T.
  - intros _. apply andb_prop in T as [T1%Z.ltb_lt T2%Z.ltb_lt].
    replace (t1 <? t2 + d2' + buffer') with true by (symmetry; apply Z.ltb_lt; lia).
    replace (t2 <? t1 + d1' + buffer') with true by (symmetry; apply Z.ltb_lt; lia).
    reflexivity.
  - discriminate.
Qed.

Lemma detect_overlap_monotone_witness :
  flag_of (detect_overlap "09:00" 45 "09:32" 30 10) = Ok true.
Proof.
  apply (detect_overlap_monotone "09:00" 30 "09:32" 30 5 45 30 10 540 572);
    [reflexivity | reflexivity | lia | lia | lia | reflexivity | reflexivity
    | reflexivity].
Defined.

(** X7. In minutes since midnight: validate_business_hours accepts a time
    exactly when 60 * min_hour <= t < 60 * max_hour; in particular it
    accepts nothing when max_hour <= min_hour. *)
Theorem validate_business_hours_minutes s t min_hour max_hour :
  time_to_minutes s = Ok t ->
  (exists b, validate_business_hours s min_hour max_hour = Ok b
             /\ (b = true <-> 60 * min_hour <= t < 60 * max_hour))
  /\ (max_hour <= min_hour -> validate_business_hours s min_hour max_hour = Ok false).
Proof.
  intros (h & m & E & -> & Hh & Hm)%time_to_minutes_inv.
  unfold validate_business_hours, parse_time. rewrite E.
  cbn [mbind result_bind rbind fst snd dt_hour]. split.
  - eexists. split; [reflexivity|].
    rewrite andb_true_iff, Z.leb_le, Z.ltb_lt. lia.
  - intros Hw. f_equal. apply andb_false_iff.
    destruct (Z.leb_spec min_hour h); [right; apply Z.ltb_ge; lia | left; reflexivity].
Qed.

Lemma validate_business_hours_minutes_witness :
  (exists b, validate_business_hours "19:59" 8 20 = Ok b
             /\ (b = true <-> 60 * 8 <= 1199 < 60 * 20))
  /\ (20 <= 8 -> validate_business_hours "19:59" 8 20 = Ok false).
Proof. apply (validate_business_hours_minutes "19:59" 1199 8 20). reflexivity. Defined.
End DetectorMore.

(** ** More on the conflict check of create_appointment *)

Section ConflictMore.
Import appointment_service.

(** X8. For a slot shorter than a day, the end time create_appointment
    works with is the start plus the duration when the slot is over before
    midnight, and is earlier than the start exactly when the slot reaches
    midnight or runs past it. *)
Theorem calculate_end_time_wraps s t d :
  conflict_detector.time_to_minutes s = Ok t -> 0 < d < 1440 ->
  exists e e_t,
    calculate_end_time s d = Ok e
    /\ conflict_detector.time_to_minutes e = Ok e_t
    /\ (t + d < 1440 -> e_t = t + d)
    /\ (e_t < t <-> 1440 <= t + d).
Proof.
  intros E Hd. pose proof (time_to_minutes_range _ _ E) as Ht.
  rewrite (calculate_end_time_eval _ _ _ E).
  rewrite (representable_duration _ _ d E) by lia.
  exists (clock (t + d)), ((t + d) mod 1440).
  split; [reflexivity|]. split; [apply time_to_minutes_clock|].
  destruct (Z_lt_dec (t + d) 1440) as [L|G].
  - rewrite Z.mod_small by lia. split; [reflexivity | lia].
  - assert ((t + d) mod 1440 = t + d - 1440) as ->.
    { symmetry. apply (Z.mod_unique _ _ 1); lia. }
    split; lia.
Qed.

Lemma calculate_end_time_wraps_witness :
  exists e e_t,
    calculate_end_time "23:00" 60 = Ok e
    /\ conflict_detector.time_to_minutes e = Ok e_t
    /\ (1380 + 60 < 1440 -> e_t = 1380 + 60)
    /\ (e_t < 1380 <-> 1440 <= 1380 + 60).
Proof. apply (calculate_end_time_wraps "23:00" 1380 60); [reflexivity | lia]. Defined.

Lemma same_day_representable s t d :
  conflict_detector.time_to_minutes s = Ok t -> same_day t d = true ->
  representable (t + d) = true /\ (t + d) mod 1440 = t + d.
Proof.
  intros Ht%time_to_minutes_range [H1%Z.leb_le H2%Z.ltb_lt]%andb_prop.
  unfold representable. rewrite (Z.div_small (t + d) 1440) by lia.
  split; [reflexivity | apply Z.mod_small; lia].
Qed.

(** X9. For two slots that are over before midnight, the overlap test of
    the service, fed with the end times calculate_end_time gives, answers
    what detect_overlap answers with a buffer of zero. *)
Theorem check_time_overlap_is_detect_overlap s1 t1 d1 s2 t2 d2 :
  conflict_detector.time_to_minutes s1 = Ok t1 ->
  conflict_detector.time_to_minutes s2 = Ok t2 ->
  same_day t1 d1 = true -> same_day t2 d2 = true ->
  (end1 ← calculate_end_time s1 d1;
   end2 ← calculate_end_time s2 d2;
   check_time_overlap s1 end1 s2 end2)
  = flag_of (conflict_detector.detect_overlap s1 d1 s2 d2 0).
Proof.
  intros E1 E2 S1 S2.
  destruct (same_day_representable _ _ _ E1 S1) as [R1 M1].
  destruct (same_day_representable _ _ _ E2 S2) as [R2 M2].
  rewrite (calculate_end_time_eval _ _ _ E1), (calculate_end_time_eval _ _ _ E2), R1, R2.
  cbn [mbind result_bind rbind].
  rewrite (check_time_overlap_eval _ _ _ _ _ _ E1 E2), M1, M2.
  rewrite (detect_overlap_eval _ _ _ _ _ _ 0 E1 E2), R1, R2, !Z.add_0_r.
  destruct (_ && _); reflexivity.
Qed.

Lemma check_time_overlap_is_detect_overlap_witness :
  (end1 ← calculate_end_time "09:15" 30;
   end2 ← calculate_end_time "09:00" 30;
   check_time_overlap "09:15" end1 "09:00" end2)
  = flag_of (conflict_detector.detect_overlap "09:15" 30 "09:00" 30 0).
Proof.
  apply (check_time_overlap_is_detect_overlap "09:15" 555 30 "09:00" 540 30); reflexivity.
Defined.



End ConflictMore.

(** ** Creating through the service and through the schema *)

Section CreateMore.
Import appointment_service.

Lemma out_of_the_way_not_candidate input_data apt :
  out_of_the_way input_data apt -> is_candidate input_data apt = false.
Proof.
  unfold out_of_the_way, is_candidate, literal. cbn [existsb].
  intros [H|[H|[H|H]]].
  - apply String.eqb_neq in H. rewrite H. reflexivity.
  - apply String.eqb_neq in H. rewrite H, andb_false_r. reflexivity.
  - rewrite H. cbn. rewrite !andb_false_r. reflexivity.
  - rewrite H. cbn. rewrite !andb_false_r. reflexivity.
Qed.

(** X11. Rows of another doctor, of another date, or with status
    Cancelled or Completed never stand in the way: a validated request on
    a store of valid rows, all of them of that kind, is created, however
    the times overlap. *)
Theorem create_ignores_rows_out_of_the_way input_data uuid_hex utcnow db :
  validate_create_input input_data = true -> Forall valid_row db ->
  Forall (out_of_the_way input_data) db ->
  create_appointment input_data uuid_hex utcnow db
  = (Ok (new_appointment input_data uuid_hex utcnow),
     (db ++ [new_appointment input_data uuid_hex utcnow])%list).
Proof.
  intros V HV HO. rewrite (create_appointment_validated _ _ _ _ V HV).
  destruct (List.find _ db) as [a|] eqn:F; [|reflexivity].
  apply List.find_some in F as [Ha%list_elem_of_In Wa].
  rewrite Forall_forall in HO. specialize (HO a Ha).
  apply out_of_the_way_not_candidate in HO.
  unfold wrapped_conflict in Wa. rewrite HO in Wa. discriminate.
Qed.

Lemma create_ignores_rows_out_of_the_way_witness :
  create_appointment
    (mk_input "Tara Menon" "2025-12-25" "10:15" 30 "Dr. Sarah Johnson" "Phone" None)
    uuid_c sample_utcnow
    [mk_appointment "apt-008" "Kavya Nair" "2025-12-25" "10:00" 60
       "Dr. Sarah Johnson" "Cancelled" "In-person" "2025-12-24T10:00:00Z"]
  = (Ok (new_appointment
           (mk_input "Tara Menon" "2025-12-25" "10:15" 30 "Dr. Sarah Johnson" "Phone" None)
           uuid_c sample_utcnow),
     ([mk_appointment "apt-008" "Kavya Nair" "2025-12-25" "10:00" 60
         "Dr. Sarah Johnson" "Cancelled" "In-person" "2025-12-24T10:00:00Z"]
      ++ [new_appointment
            (mk_input "Tara Menon" "2025-12-25" "10:15" 30 "Dr. Sarah Johnson" "Phone" None)
            uuid_c sample_utcnow])%list).
Proof.
  apply create_ignores_rows_out_of_the_way.
  - reflexivity.
  - apply Forall_singleton. reflexivity.
  - apply Forall_singleton. right. right. left. reflexivity.
Defined.

(** X12. On a store of valid rows the create mutation has three outcomes
    and no other: the input fails validation, nothing is stored and a
    validation error is raised; or a time conflict is raised and nothing is
    stored; or the record is returned, appended to the store, and passes
    response validation itself. *)
Theorem mutation_create_outcomes input uuid_hex utcnow db :
  Forall valid_row db ->
  (validate_create_input input = false
   /\ Mutation.create_appointment input uuid_hex utcnow db = (Raise ValidationError, db))
  \/ (validate_create_input input = true
      /\ exists msg,
           Mutation.create_appointment input uuid_hex utcnow db
           = (Raise (TimeConflict msg), db))
  \/ (validate_create_input input = true
      /\ exists r,
           Mutation.create_appointment input uuid_hex utcnow db
           = (Ok r, (db ++ [r])%list)
           /\ valid_row r).
Proof.
  intros HV. unfold Mutation.create_appointment, Mutation.PydanticCreateInput.
  destruct (validate_create_input input) eqn:V; [right | left; split; reflexivity].
  rewrite (create_appointment_validated _ _ _ _ V HV).
  destruct (List.find _ db) as [a|]; [left | right]; (split; [reflexivity|]).
  - eexists. reflexivity.
  - eexists. split; [reflexivity | apply new_appointment_valid, V].
Qed.

Lemma mutation_create_outcomes_witness :
  (validate_create_input morning_overlap = false
   /\ Mutation.create_appointment morning_overlap uuid_c sample_utcnow appointments_db
      = (Raise ValidationError, appointments_db))
  \/ (validate_create_input morning_overlap = true
      /\ exists msg,
           Mutation.create_appointment morning_overlap uuid_c sample_utcnow appointments_db
           = (Raise (TimeConflict msg), appointments_db))
  \/ (validate_create_input morning_overlap = true
      /\ exists r,
           Mutation.create_appointment morning_overlap uuid_c sample_utcnow appointments_db
           = (Ok r, (appointments_db ++ [r])%list)
           /\ valid_row r).
Proof.
  apply (mutation_create_outcomes morning_overlap uuid_c sample_utcnow appointments_db).
  unfold appointments_db. repeat (constructor; [reflexivity|]). constructor.
Defined.
End CreateMore.

(** ** Deleting, updating and looking up *)

Section LookupMore.
Import appointment_service.

Lemma first_with_id_none id db :
  id ∉ ids db -> Query.first_with_id id db = None.
Proof.
  induction db as [|a db IH]; [reflexivity|].
  intros [N Hn]%not_in_ids_cons. cbn [Query.first_with_id].
  destruct (String.eqb_spec (apt_id a) id); [contradiction | exact (IH Hn)].
Qed.

Lemma first_with_id_split id l1 apt l2 :
  id ∉ ids l1 -> apt_id apt = id ->
  Query.first_with_id id (l1 ++ apt :: l2) = Some apt.
Proof.
  intros Hn E. induction l1 as [|a l1 IH]; cbn [app Query.first_with_id].
  - rewrite E, String.eqb_refl. reflexivity.
  - apply not_in_ids_cons in Hn as [N Hn].
    destruct (String.eqb_spec (apt_id a) id); [contradiction | exact (IH Hn)].
Qed.

Lemma delete_store_eval id l1 apt l2 :
  id ∉ ids l1 -> apt_id apt = id ->
  delete_appointment id (l1 ++ apt :: l2) = (Ok true, (l1 ++ l2)%list).
Proof.
  intros Hn E. unfold delete_appointment.
  rewrite (delete_loop_split _ 0%nat _ _ l2 Hn E). cbn [Nat.add].
  f_equal. apply delete_middle.
Qed.

Lemma delete_absent id db :
  id ∉ ids db ->
  delete_appointment id db = (Raise (NotFound (not_found_message id)), db).
Proof.
  intros Hn. unfold delete_appointment.
  rewrite (proj2 (delete_loop_none _ 0%nat _) Hn). reflexivity.
Qed.

(** X13. On a store whose ids are pairwise distinct, deleting a stored id
    returns true, shortens the store by exactly that one row, keeps the
    other rows in their order, and leaves no row with that id: deleting
    the same id again fails with NotFound and changes nothing. *)
Theorem delete_then_delete id db :
  NoDup (ids db) -> id ∈ ids db ->
  exists db',
    delete_appointment id db = (Ok true, db')
    /\ length db = S (length db')
    /\ db' `sublist_of` db
    /\ (id ∉ ids db')
    /\ (forall other, other <> id -> other ∈ ids db -> other ∈ ids db')
    /\ delete_appointment id db'
       = (Raise (NotFound ("Appointment with ID " ++ id ++ " not found")), db').
Proof.
  intros ND Hin.
  destruct (first_occurrence _ _ Hin) as (l1 & a & l2 & -> & Hn & Ea).
  exists (l1 ++ l2)%list. rewrite (delete_store_eval _ _ _ _ Hn Ea).
  assert (id ∉ ids (l1 ++ l2)) as Hn'.
  { rewrite ids_app, ids_cons in ND. apply NoDup_app in ND as (_ & _ & ND2).
    apply NoDup_cons in ND2 as [N2 _]. rewrite Ea in N2.
    rewrite ids_app. intros [H|H]%elem_of_app; contradiction. }
  split; [reflexivity|]. split; [rewrite !length_app; cbn [length]; lia|].
  split; [apply sublist_app; [reflexivity | apply sublist_cons; reflexivity]|].
  split; [exact Hn'|]. split.
  - intros other Ho. rewrite !ids_app, ids_cons, !elem_of_app, elem_of_cons.
    intros [H|[H|H]]; [tauto | congruence | tauto].
  - apply delete_absent, Hn'.
Qed.

Lemma delete_then_delete_witness :
  exists db',
    delete_appointment "apt-012" appointments_db = (Ok true, db')
    /\ length appointments_db = S (length db')
    /\ db' `sublist_of` appointments_db
    /\ ("apt-012" ∉ ids db')
    /\ (forall other, other <> "apt-012" -> other ∈ ids appointments_db -> other ∈ ids db')
    /\ delete_appointment "apt-012" db'
       = (Raise (NotFound ("Appointment with ID " ++ "apt-012" ++ " not found")), db').
Proof.
  apply (delete_then_delete "apt-012" appointments_db).
  - apply (bool_decide_unpack _). vm_compute. exact I.
  - apply (bool_decide_unpack _). vm_compute. exact I.
Defined.

Lemma without_status_with_status apt new_status :
  without_status (with_status apt new_status) = without_status apt.
Proof. reflexivity. Qed.

(** X14. update_appointment_status touches nothing but a status: with
    the statuses blanked, the store after the call is the store before it,
    whatever the id and the new status and whether or not the call raises;
    and a second call with the same arguments changes nothing more. *)
Theorem update_changes_status_only id new_status db :
  without_status <$> snd (update_appointment_status id new_status db)
  = without_status <$> db
  /\ snd (update_appointment_status id new_status
            (snd (update_appointment_status id new_status db)))
     = snd (update_appointment_status id new_status db).
Proof.
  destruct (update_store_eval id new_status db)
    as [[Hn E] | (l1 & a & l2 & -> & Hn & Ea & E)]; rewrite E.
  - split; [reflexivity | exact E].
  - split.
    + rewrite !fmap_app, !fmap_cons, without_status_with_status. reflexivity.
    + unfold update_appointment_status.
      rewrite (update_loop_split _ new_status l1 (with_status a new_status) l2 Hn Ea).
      reflexivity.
Qed.
Lemma get_all_valid db :
  Forall valid_row db -> get_appointments None None None db = Ok db.
Proof.
  intros HV. rewrite (get_appointments_valid _ _ _ _ HV). f_equal.
  rewrite <- (filter_true db) at 2. apply List.filter_ext. reflexivity.
Qed.

(** X15. On a store of valid rows, updating a stored id to one of the
    enumerated statuses returns the record with that id and the new
    status, keeps every row valid, and a lookup of the id through
    Query.appointment right after returns that same record. *)
Theorem update_then_lookup id status db :
  Forall valid_row db -> literal statuses status = true -> id ∈ ids db ->
  exists r db',
    Mutation.update_appointment_status id status db = (Ok r, db')
    /\ apt_id r = id /\ apt_status r = status
    /\ Forall valid_row db'
    /\ Query.appointment id db' = Ok (Some r).
Proof.
  intros HV Hs Hin.
  destruct (first_occurrence _ _ Hin) as (l1 & a & l2 & -> & Hn & Ea).
  apply Forall_app in HV as [H1 [Ha H2]%Forall_cons].
  pose proof (with_status_valid _ _ Ha Hs) as Va.
  assert (Forall valid_row (l1 ++ with_status a status :: l2)) as HV'.
  { apply Forall_app. split; [exact H1|]. apply Forall_cons. split; assumption. }
  exists (with_status a status), (l1 ++ with_status a status :: l2)%list.
  unfold Mutation.update_appointment_status, update_appointment_status.
  rewrite (update_loop_split _ status _ _ l2 Hn Ea).
  unfold AppointmentResponse. rewrite Va.
  split; [reflexivity|]. split; [exact Ea|]. split; [reflexivity|]. split; [exact HV'|].
  unfold Query.appointment. rewrite (get_all_valid _ HV'). cbn [mbind result_bind rbind].
  rewrite (first_with_id_split id l1 (with_status a status) l2 Hn Ea). reflexivity.
Qed.

Lemma update_then_lookup_witness :
  exists r db',
    Mutation.update_appointment_status "apt-003" "Completed" appointments_db = (Ok r, db')
    /\ apt_id r = "apt-003" /\ apt_status r = "Completed"
    /\ Forall valid_row db'
    /\ Query.appointment "apt-003" db' = Ok (Some r).
Proof.
  apply (update_then_lookup "apt-003" "Completed" appointments_db).
  - unfold appointments_db. repeat (constructor; [reflexivity|]). constructor.
  - reflexivity.
  - apply (bool_decide_unpack _). vm_compute. exact I.
Defined.

(** X16. On a store of valid rows, when the create mutation returns a
    record whose id no stored row has yet, a lookup of that id through
    Query.appointment right after returns that record. *)
Theorem create_then_lookup input uuid_hex utcnow db r db' :
  Forall valid_row db ->
  Mutation.create_appointment input uuid_hex utcnow db = (Ok r, db') ->
  apt_id r ∉ ids db ->
  Query.appointment (apt_id r) db' = Ok (Some r).
Proof.
  intros HV H Hn. unfold Mutation.create_appointment, Mutation.PydanticCreateInput in H.
  destruct (validate_create_input input); [|discriminate].
  destruct (create_appointment_cases input uuid_hex utcnow db)
    as [(e & E & _) | E]; rewrite E in H; [discriminate|].
  unfold AppointmentResponse in H.
  destruct (validate_response (new_appointment input uuid_hex utcnow)) eqn:Vn;
    [|discriminate].
  injection H as <- <-.
  assert (Forall valid_row (db ++ [new_appointment input uuid_hex utcnow])) as HV'.
  { apply Forall_app. split; [exact HV | apply Forall_singleton, Vn]. }
  unfold Query.appointment. rewrite (get_all_valid _ HV'). cbn [mbind result_bind rbind].
  rewrite (first_with_id_split _ db _ [] Hn eq_refl). reflexivity.
Qed.

Lemma create_then_lookup_witness :
  Query.appointment (apt_id morning_free_record)
    (appointments_db ++ [morning_free_record])%list
  = Ok (Some morning_free_record).
Proof.
  apply (create_then_lookup morning_free uuid_c sample_utcnow appointments_db).
  - unfold appointments_db. repeat (constructor; [reflexivity|]). constructor.
  - vm_compute. reflexivity.
  - apply (bool_decide_unpack _). vm_compute. exact I.
Defined.

(** X17. Query.appointment validates every stored row before it looks
    for the id. On a store of valid rows it returns the first row with the
    id, and None when no row has it; as soon as one stored row fails
    response validation it raises, whatever id is asked for. *)
Theorem query_appointment_lookup id db :
  (Forall valid_row db ->
   (id ∉ ids db -> Query.appointment id db = Ok None)
   /\ (forall l1 apt l2,
         db = (l1 ++ apt :: l2)%list -> id ∉ ids l1 -> apt_id apt = id ->
         Query.appointment id db = Ok (Some apt)))
  /\ (forall apt, apt ∈ db -> validate_response apt = false ->
        Query.appointment id db = Raise ValidationError).
Proof.
  split.
  - intros HV. unfold Query.appointment. rewrite (get_all_valid _ HV).
    cbn [mbind result_bind rbind]. split.
    + intros Hn. rewrite (first_with_id_none _ _ Hn). reflexivity.
    + intros l1 a l2 -> Hn Ea. rewrite (first_with_id_split _ _ _ _ Hn Ea). reflexivity.
  - intros a Ha Va. unfold Query.appointment.
    rewrite filter_passes, to_responses_eval.
    replace (forallb _ _) with false; [reflexivity|].
    symmetry. apply not_true_iff_false. intros F. rewrite forallb_forall in F.
    assert (validate_response a = true); [|congruence].
    apply F, List.filter_In. split; [apply list_elem_of_In, Ha | reflexivity].
Qed.

(** X18. The delete mutation never raises: it always returns a response
    with no appointment attached. For an id no stored row has, the response
    says success false with the message of the NotFound error and the store
    is left alone; otherwise the first row with the id is removed and the
    response says success true. *)
Theorem mutation_delete_response id db :
  (exists response,
     fst (Mutation.delete_appointment id db) = Ok response
     /\ appointment response = None
     /\ (success response = true <-> id ∈ ids db))
  /\ (id ∉ ids db ->
      Mutation.delete_appointment id db
      = (Ok (mk_response false ("Appointment with ID " ++ id ++ " not found") None), db))
  /\ (forall l1 apt l2,
        db = (l1 ++ apt :: l2)%list -> id ∉ ids l1 -> apt_id apt = id ->
        Mutation.delete_appointment id db
        = (Ok (mk_response true ("Appointment " ++ id ++ " deleted successfully") None),
           (l1 ++ l2)%list)).
Proof.
  unfold Mutation.delete_appointment. split; [|split].
  - destruct (decide (id ∈ ids db)) as [Hin|Hn].
    + destruct (first_occurrence _ _ Hin) as (l1 & a & l2 & -> & Hn & Ea).
      rewrite (delete_store_eval _ _ _ _ Hn Ea).
      eexists. split; [reflexivity|]. split; [reflexivity|]. done.
    + rewrite (delete_absent _ _ Hn).
      eexists. split; [reflexivity|]. split; [reflexivity|].
      cbn [success]. split; [discriminate | contradiction].
  - intros Hn. rewrite (delete_absent _ _ Hn). reflexivity.
  - intros l1 a l2 -> Hn Ea. rewrite (delete_store_eval _ _ _ _ Hn Ea). reflexivity.
Qed.

(** X19. The filters of get_appointments can be applied in stages: on a
    store of valid rows, filtering by date first and filtering what comes
    back by status and doctor gives what one call with the three filters
    gives. *)
Theorem get_appointments_staged date status doctor_name db :
  Forall valid_row db ->
  (rows ← get_appointments date None None db;
   get_appointments None status doctor_name rows)
  = get_appointments date status doctor_name db.
Proof.
  intros HV. rewrite !(get_appointments_valid _ _ _ _ HV). cbn [mbind result_bind rbind].
  rewrite get_appointments_valid.
  - rewrite filter_filter. f_equal. apply List.filter_ext. intros a.
    unfold selected. cbn [keeps]. rewrite !andb_true_r, andb_assoc. reflexivity.
  - rewrite Forall_forall in *. intros a Ha%list_elem_of_In%List.filter_In.
    apply HV, list_elem_of_In, Ha.
Qed.

Lemma get_appointments_staged_witness :
  (rows ← get_appointments (Some "2025-12-27") None None appointments_db;
   get_appointments None (Some "Confirmed") (Some "Dr. Sarah Johnson") rows)
  = get_appointments (Some "2025-12-27") (Some "Confirmed") (Some "Dr. Sarah Johnson")
      appointments_db.
Proof.
  apply get_appointments_staged.
  unfold appointments_db. repeat (constructor; [reflexivity|]). constructor.
Defined.
End LookupMore.

(** ** Dates *)

Section Dates.

Lemma re_Y_inv {A} s k (x : A) :
  re_Y s k = Some x ->
  exists y r, 0 <= y <= 9999 /\ k y r = Some x
              /\ String.length s = (4 + String.length r)%nat.
Proof.
  unfold re_Y. intros H.
  repeat case_match; simplify_eq; digit_bounds;
    eexists _, _; (split; [|split; [eassumption | reflexivity]]); lia.
Qed.

Lemma re_m_inv {A} s k (x : A) :
  re_m s k = Some x ->
  exists mo r, 1 <= mo <= 12 /\ k mo r = Some x
               /\ (String.length r < String.length s <= String.length r + 2)%nat.
Proof.
  unfold re_m, or_else. intros H.
  repeat case_match; simplify_eq; digit_bounds;
    eexists _, _; (split; [|split; [eassumption | cbn [String.length]; lia]]); lia.
Qed.

Lemma re_d_inv {A} s k (x : A) :
  re_d s k = Some x ->
  exists d r, 1 <= d <= 31 /\ k d r = Some x
              /\ (String.length r < String.length s <= String.length r + 2)%nat.
Proof.
  unfold re_d, or_else. intros H.
  repeat case_match; simplify_eq; digit_bounds;
    eexists _, _; (split; [|split; [eassumption | cbn [String.length]; lia]]); lia.
Qed.

Lemma digit_val_digit_char n : digit_val (digit_char n) = n mod 10.
Proof.
  unfold digit_char. pose proof (Z.mod_pos_bound n 10).
  destruct (Z.to_nat (n mod 10)) as [|[|[|[|[|[|[|[|[|[|k]]]]]]]]]] eqn:E;
    try (replace (n mod 10) with (Z.of_nat (Z.to_nat (n mod 10))) by lia;
         rewrite E; reflexivity).
  lia.
Qed.

Lemma re_Y_pad4 {A} y r (k : Z -> string -> option A) :
  0 <= y <= 9999 -> re_Y (pad4 y ++ r) k = k y r.
Proof.
  intros Hy.
  change (pad4 y ++ r)
    with (String (digit_char (y / 1000)) (String (digit_char (y / 100))
           (String (digit_char (y / 10)) (String (digit_char y) r)))).
  unfold re_Y. rewrite !is_digit_digit_char, !digit_val_digit_char. cbn [andb].
  f_equal. Z.div_mod_to_equations. lia.
Qed.
(** Splits a bounded number into its possible values. *)
Ltac concrete_upto n :=
  match goal with
  | H : 1 <= n <= _ |- _ =>
      destruct n as [|n|n]; [lia | | lia];
      do 5 (try (destruct n as [n|n|]; try lia))
  end.

(** Evaluates the character tests of a match on character constants. *)
Ltac eval_tests :=
  repeat match goal with
    | |- context [in_range ?a ?b ?c] =>
        let v := eval vm_compute in (in_range a b c) in
        change (in_range a b c) with v
    end;
  digit_consts.

Lemma re_m_pad2 {A} mo r (k : Z -> string -> option A) x :
  1 <= mo <= 12 -> k mo r = Some x -> re_m (pad2 mo ++ r) k = Some x.
Proof.
  intros Hm Hk. concrete_upto mo;
    match goal with
    | |- context [pad2 ?v] =>
        let p := eval vm_compute in (pad2 v) in change (pad2 v) with p
    end;
    cbv [String.append]; unfold re_m; cbn; eval_tests; cbn;
    change (10 + 0) with 10; change (10 + 1) with 11; change (10 + 2) with 12;
    rewrite Hk; reflexivity.
Qed.

Lemma re_d_pad2 {A} d r (k : Z -> string -> option A) x :
  1 <= d <= 31 -> k d r = Some x -> re_d (pad2 d ++ r) k = Some x.
Proof.
  intros Hd Hk. concrete_upto d;
    match goal with
    | |- context [pad2 ?v] =>
        let p := eval vm_compute in (pad2 v) in change (pad2 v) with p
    end;
    cbv [String.append]; unfold re_d; cbn; eval_tests; cbn;
    repeat match goal with
      | |- context [k (?a + ?b) r] =>
          let v := eval vm_compute in (a + b) in change (a + b) with v
      | |- context [k (?a * ?b + ?c) r] =>
          let v := eval vm_compute in (a * b + c) in change (a * b + c) with v
      end;
    rewrite Hk; reflexivity.
Qed.

Lemma days_in_month_le y mo : days_in_month y mo <= 31.
Proof. unfold days_in_month. repeat case_match; lia. Qed.

(** X20. The date validator accepts exactly the dates of the calendar. A
    zero-padded YYYY-MM-DD with a year from 1 to 9999, a month from 1 to 12
    and a day the month has in that year, leap years counted, is accepted
    and read as those three numbers; and whatever string is accepted has
    eight to ten characters and names such a date. *)
Theorem strptime_Ymd_accepts :
  (forall y mo d,
     1 <= y <= 9999 -> 1 <= mo <= 12 -> 1 <= d <= days_in_month y mo ->
     strptime_Ymd (pad4 y ++ "-" ++ pad2 mo ++ "-" ++ pad2 d) = Ok (y, mo, d))
  /\ (forall s y mo d,
        strptime_Ymd s = Ok (y, mo, d) ->
        1 <= y <= 9999 /\ 1 <= mo <= 12 /\ 1 <= d <= days_in_month y mo
        /\ (8 <= String.length s <= 10)%nat).
Proof.
  split.
  - intros y mo d Hy Hm Hd. pose proof (days_in_month_le y mo).
    unfold strptime_Ymd, match_Ymd.
    rewrite re_Y_pad4 by lia.
    change ("-" ++ pad2 mo ++ "-" ++ pad2 d)
      with (String "-" (pad2 mo ++ String "-" (pad2 d ++ ""))).
    cbn [re_lit]. rewrite Ascii.eqb_refl.
    rewrite (re_m_pad2 mo _ _ (y, mo, d, "")); [| lia |].
    + replace (1 <=? y) with true by (symmetry; apply Z.leb_le; lia).
      replace (d <=? days_in_month y mo) with true by (symmetry; apply Z.leb_le; lia).
      reflexivity.
    + cbn [re_lit]. rewrite Ascii.eqb_refl.
      apply re_d_pad2; [lia | reflexivity].
  - intros s y mo d. unfold strptime_Ymd, match_Ymd.
    destruct (re_Y _ _) as [[[[y' mo'] d'] r]|] eqn:E; [|discriminate].
    apply re_Y_inv in E as (y0 & r0 & Hy & E & L0).
    apply re_lit_inv in E as (r1 & -> & E).
    apply re_m_inv in E as (mo0 & r2 & Hm & E & L2).
    apply re_lit_inv in E as (r3 & -> & E).
    apply re_d_inv in E as (d0 & r4 & Hd & E & L4).
    injection E as <- <- <- <-.
    destruct r4; [|discriminate].
    destruct ((1 <=? y0) && (d0 <=? days_in_month y0 mo0)) eqn:C; [|discriminate].
    intros [= <- <- <-]. apply andb_prop in C as [C1%Z.leb_le C2%Z.leb_le].
    cbn [String.length] in *. repeat split; lia.
Qed.
End Dates.

(** ** Runs of mutations through the schema *)

Section ApiRuns.
Import appointment_service.

Lemma valid_row_base_valid apt : valid_row apt -> base_valid apt.
Proof. unfold valid_row, validate_response, base_valid. intros [H _]%andb_prop. exact H. Qed.

Lemma mutation_delete_store id db :
  snd (Mutation.delete_appointment id db) = snd (delete_appointment id db).
Proof.
  unfold Mutation.delete_appointment.
  destruct (delete_appointment id db) as [[b|e] db']; [reflexivity|].
  destruct (Mutation.is_ValueError e); reflexivity.
Qed.

Lemma mutation_create_store input uuid_hex utcnow db :
  snd (Mutation.create_appointment input uuid_hex utcnow db) = db
  \/ (validate_create_input input = true
      /\ snd (Mutation.create_appointment input uuid_hex utcnow db)
         = (db ++ [new_appointment input uuid_hex utcnow])%list).
Proof.
  unfold Mutation.create_appointment, Mutation.PydanticCreateInput.
  destruct (validate_create_input input) eqn:V; [|left; reflexivity].
  destruct (create_appointment_cases input uuid_hex utcnow db)
    as [(e & -> & _) | ->]; [left | right; split]; reflexivity.
Qed.

Lemma api_step_base_valid db c :
  Forall base_valid db -> Forall base_valid (api_step db c).
Proof.
  intros HF. destruct c as [input uuid_hex utcnow | id status | id]; cbn [api_step].
  - destruct (mutation_create_store input uuid_hex utcnow db) as [-> | [V ->]];
      [exact HF|].
    apply Forall_app. split; [exact HF|].
    apply Forall_singleton, valid_row_base_valid, new_appointment_valid, V.
  - unfold Mutation.update_appointment_status.
    destruct (update_store_eval id status db)
      as [[_ ->] | (l1 & a & l2 & -> & _ & _ & ->)]; [exact HF|].
    apply Forall_app in HF as [H1 [Ha H2]%Forall_cons].
    apply Forall_app. split; [exact H1|]. apply Forall_cons. split; [exact Ha | exact H2].
  - rewrite mutation_delete_store. rewrite Forall_forall in *. intros a Ha. apply HF.
    eapply elem_of_sublist; [exact Ha | apply delete_sublist].
Qed.

(** X21. Whatever mutations are issued through the schema, in whatever
    order and with whatever arguments, every stored appointment keeps
    names of 2 to 100 characters, a calendar date, a well-formed time, a
    duration from 15 to 240 minutes and one of the three modes. *)
Theorem api_run_keeps_base_valid cs :
  Forall base_valid (api_run cs appointments_db).
Proof.
  assert (Forall base_valid appointments_db) as H0.
  { eapply Forall_impl; [exact seeded_valid | exact valid_row_base_valid]. }
  revert H0. generalize appointments_db.
  induction cs as [|c cs IH]; intros db H0; [exact H0|].
  unfold api_run. cbn [foldl]. apply IH, api_step_base_valid, H0.
Qed.

Lemma api_step_valid db c :
  listed_updates [c] = true -> Forall valid_row db -> Forall valid_row (api_step db c).
Proof.
  unfold listed_updates. cbn [forallb]. rewrite andb_true_r. intros L HF.
  destruct c as [input uuid_hex utcnow | id status | id]; cbn [api_step].
  - destruct (mutation_create_store input uuid_hex utcnow db) as [-> | [V ->]];
      [exact HF|].
    apply Forall_app. split; [exact HF|].
    apply Forall_singleton, new_appointment_valid, V.
  - unfold Mutation.update_appointment_status.
    destruct (update_store_eval id status db)
      as [[_ ->] | (l1 & a & l2 & -> & _ & _ & ->)]; [exact HF|].
    apply Forall_app in HF as [H1 [Ha H2]%Forall_cons].
    apply Forall_app. split; [exact H1|]. apply Forall_cons.
    split; [apply with_status_valid; assumption | exact H2].
  - rewrite mutation_delete_store. rewrite Forall_forall in *. intros a Ha. apply HF.
    eapply elem_of_sublist; [exact Ha | apply delete_sublist].
Qed.

(** X22. When the status updates among the mutations name enumerated
    statuses only, with no condition on the create inputs, every stored
    row keeps passing response validation, and so Query.appointments
    always returns: it gives the stored rows that match the filters, in
    insertion order. *)
Theorem api_run_keeps_queries_working cs date status doctor_name :
  listed_updates cs = true ->
  Forall valid_row (api_run cs appointments_db)
  /\ Query.appointments date status doctor_name (api_run cs appointments_db)
     = Ok (List.filter (selected date status doctor_name) (api_run cs appointments_db)).
Proof.
  intros L.
  assert (Forall valid_row (api_run cs appointments_db)) as HV.
  { revert L. generalize seeded_valid. generalize appointments_db.
    induction cs as [|c cs IH]; intros db H0 L; [exact H0|].
    unfold listed_updates in L. cbn [forallb] in L. apply andb_prop in L as [L1 L2].
    unfold api_run. cbn [foldl]. apply IH; [|exact L2].
    apply api_step_valid; [|exact H0].
    unfold listed_updates. cbn [forallb]. rewrite L1. reflexivity. }
  split; [exact HV|].
  unfold Query.appointments. rewrite (get_appointments_valid _ _ _ _ HV). reflexivity.
Qed.

Lemma api_run_keeps_queries_working_witness :
  Forall valid_row (api_run sample_listed_api_run appointments_db)
  /\ Query.appointments None (Some "Completed") None
       (api_run sample_listed_api_run appointments_db)
     = Ok (List.filter (selected None (Some "Completed") None)
             (api_run sample_listed_api_run appointments_db)).
Proof.
  apply (api_run_keeps_queries_working sample_listed_api_run None (Some "Completed") None).
  vm_compute. reflexivity.
Defined.
End ApiRuns.

(** ** Conflicts that create_appointment reports *)

Section ConflictsReported.
Import appointment_service.

Lemma parse_time_cases s :
  (exists dt, parse_time s = Ok dt) \/ parse_time s = Raise StrptimeError.
Proof.
  destruct (parse_time s) as [dt|e] eqn:E; [left; eauto | right].
  rewrite (parse_time_Raise _ _ E). reflexivity.
Qed.

(** X23. The overlap test of the service does not depend on the order of
    the two ranges: swapping them gives the same answer, or the same
    exception when a time does not parse. *)
Theorem check_time_overlap_symmetric start1 end1 start2 end2 :
  check_time_overlap start1 end1 start2 end2
  = check_time_overlap start2 end2 start1 end1.
Proof.
  unfold check_time_overlap.
  destruct (parse_time_cases start1) as [[a1 ->] | ->],
           (parse_time_cases end1) as [[b1 ->] | ->],
           (parse_time_cases start2) as [[a2 ->] | ->],
           (parse_time_cases end2) as [[b2 ->] | ->];
    cbn [mbind result_bind rbind]; try reflexivity.
  rewrite andb_comm. reflexivity.
Qed.

Lemma wrapped_conflict_is_real input_data existing :
  validate_create_input input_data = true -> valid_row existing ->
  wrapped_conflict input_data existing = true ->
  spec_conflict input_data existing = true.
Proof.
  unfold validate_create_input, valid_row, validate_response, validate_base.
  intros Vi Ve. repeat (apply andb_prop in Vi as [Vi ?]). repeat (apply andb_prop in Ve as [Ve ?]).
  repeat match goal with H : (_ <=? _) = true |- _ => apply Z.leb_le in H end.
  unfold wrapped_conflict, spec_conflict, is_candidate, literal. cbn [existsb].
  rewrite orb_false_r, negb_orb, !andb_assoc.
  intros [C W]%andb_prop. rewrite C. cbn [andb].
  destruct (conflict_detector.time_to_minutes (in_time input_data)) as [n|] eqn:En;
    [|discriminate].
  destruct (conflict_detector.time_to_minutes (apt_time existing)) as [e|] eqn:Ee;
    [|discriminate].
  pose proof (time_to_minutes_range _ _ En). pose proof (time_to_minutes_range _ _ Ee).
  apply andb_prop in W as [W1%Z.ltb_lt W2%Z.ltb_lt].
  pose proof (Z.mod_le (e + apt_duration existing) 1440).
  pose proof (Z.mod_le (n + in_duration input_data) 1440).
  apply andb_true_intro. split; apply Z.ltb_lt; lia.
Qed.

(** X24. create_appointment reports no conflict that is not there: when a
    validated request fails with a time conflict on a store of valid rows,
    some stored row has the same doctor and date, is neither Cancelled nor
    Completed, and truly overlaps the request, start < end on both sides
    with end = start + duration. *)
Theorem create_conflict_is_real input_data uuid_hex utcnow db msg :
  validate_create_input input_data = true -> Forall valid_row db ->
  fst (create_appointment input_data uuid_hex utcnow db) = Raise (TimeConflict msg) ->
  exists existing, existing ∈ db /\ spec_conflict input_data existing = true.
Proof.
  intros V HV. rewrite (create_appointment_validated _ _ _ _ V HV).
  destruct (List.find _ db) as [a|] eqn:F; [|discriminate].
  intros _. apply List.find_some in F as [Ha%list_elem_of_In Wa].
  exists a. split; [exact Ha|].
  rewrite Forall_forall in HV. exact (wrapped_conflict_is_real _ _ V (HV a Ha) Wa).
Qed.

Lemma create_conflict_is_real_witness :
  exists existing,
    existing ∈ appointments_db /\ spec_conflict morning_overlap existing = true.
Proof.
  apply (create_conflict_is_real morning_overlap uuid_c sample_utcnow appointments_db
           "Time conflict: Dr. Sarah Johnson already has an appointment from 09:00 to 09:30 on 2025-12-27").
  - reflexivity.
  - unfold appointments_db. repeat (constructor; [reflexivity|]). constructor.
  - vm_compute. reflexivity.
Defined.

(** X25. Away from midnight the check is exact: for a validated request
    that is over before midnight, on a store of valid rows that are all
    over before midnight, create_appointment fails with a time conflict
    exactly when some stored row of the same doctor and date, neither
    Cancelled nor Completed, overlaps the request. *)
Theorem create_conflict_exact_before_midnight input_data uuid_hex utcnow db new_start :
  validate_create_input input_data = true -> Forall valid_row db ->
  conflict_detector.time_to_minutes (in_time input_data) = Ok new_start ->
  new_start + in_duration input_data < 1440 ->
  Forall (fun apt =>
            forall existing_start,
              conflict_detector.time_to_minutes (apt_time apt) = Ok existing_start ->
              existing_start + apt_duration apt < 1440) db ->
  (exists msg, fst (create_appointment input_data uuid_hex utcnow db)
               = Raise (TimeConflict msg))
  <-> exists existing, existing ∈ db /\ spec_conflict input_data existing = true.
Proof.
  intros V HV En Sn HS.
  assert (forall a, valid_row a -> 0 <= apt_duration a) as Dn.
  { intros a. unfold valid_row, validate_response, validate_base. intros Va.
    repeat (apply andb_prop in Va as [Va ?]).
    repeat match goal with H : (_ <=? _) = true |- _ => apply Z.leb_le in H end. lia. }
  pose proof (Dn _ (new_appointment_valid _ uuid_hex utcnow V)) as Dnew.
  cbn [new_appointment apt_duration] in Dnew.
  apply (create_conflict_iff_same_day _ _ _ _ _ En).
  - unfold same_day. apply andb_true_intro.
    split; [apply Z.leb_le | apply Z.ltb_lt]; lia.
  - rewrite Forall_forall in *. intros a Ha _.
    pose proof (valid_row_computable a (HV a Ha)) as C. unfold computable_end in C.
    destruct (conflict_detector.time_to_minutes (apt_time a)) as [e|] eqn:Ee;
      [|discriminate].
    exists e. split; [reflexivity|]. unfold same_day. apply andb_true_intro.
    split; [apply Z.leb_le, Dn, HV, Ha | apply Z.ltb_lt, (HS a Ha e Ee)].
Qed.

Lemma create_conflict_exact_before_midnight_witness :
  (exists msg, fst (create_appointment morning_free uuid_c sample_utcnow appointments_db)
               = Raise (TimeConflict msg))
  <-> exists existing, existing ∈ appointments_db /\ spec_conflict morning_free existing = true.
Proof.
  apply (create_conflict_exact_before_midnight morning_free uuid_c sample_utcnow
           appointments_db 600).
  - reflexivity.
  - unfold appointments_db. repeat (constructor; [reflexivity|]). constructor.
  - reflexivity.
  - reflexivity.
  - unfold appointments_db.
    repeat (constructor; [intros e [= <-]; reflexivity|]). constructor.
Defined.
End ConflictsReported.
